(** * Real Estate Transaction Analyzer: the normalizer, the filter and
      aggregation engines and the feedback update of [app.py].

    The first part embeds the program: Python values and the string
    operations the program calls, the table (DataFrame) operations of
    [DataProcessor], the row filters and the per-district statistics of
    [main], and the UPDATE statement built by
    [update_feedback_in_bigquery] together with the way the store reads
    it.  What the program imports and the embedding does not define is a
    parameter: [ast.literal_eval], the float64 mean and rounding of the
    statistics, and what the store does with a text other than the single
    UPDATE of the template.  The second and third parts state and prove
    the properties. *)

From Stdlib Require Import ZArith QArith Qround Qabs Ascii String List Lia.
From Stdlib Require Import DecimalString DecimalNat.
From stdpp Require Import gmap strings list fin_maps sorting.

Set Warnings "-register-all".
Local Open Scope string_scope.

(* ===================================================================== *)
(** * Part I: the program *)
(* ===================================================================== *)

(** ** Python values *)

Module Py.

(** The values a cell of an object column or a parsed literal can hold.
    [PyFloat] carries the exact value of a finite float; [PyNaN] is the
    float pandas uses for an empty cell. *)
Inductive pyval : Type :=
| PyNone
| PyBool (b : bool)
| PyInt (z : Z)
| PyFloat (q : Q)
| PyNaN
| PyStr (s : string)
| PyList (items : list pyval)
| PyDict (entries : list (pyval * pyval)).

(** Exceptions raised inside the [try] blocks of the program. *)
Inductive py_exception : Type :=
| KeyError (key : string)
| LiteralError (cell : pyval)
| AttributeError (receiver : pyval) (attribute : string)
| QueryError (query : string).

(** What the page shows: [st.error(prefix + str(e))], [st.error(text)]
    and [st.success(text)]. *)
Inductive st_message : Type :=
| StError (prefix : string) (e : py_exception)
| StErrorText (text : string)
| StSuccess (text : string).

(** [x == s] for a [str] literal [s]: only a [str] equals a [str]. *)
Definition eq_str (x : pyval) (s : string) : bool :=
  match x with PyStr t => String.eqb t s | _ => false end.

(** [str.isspace] on a character below 128, given by its byte. *)
Definition isspace (c : ascii) : bool :=
  let n := nat_of_ascii c in
  ((9 <=? n)%nat && (n <=? 13)%nat) || ((28 <=? n)%nat && (n <=? 32)%nat).

(** A [str] is held as its UTF-8 bytes.  [str.isspace] on a character of
    two bytes: U+0085 and U+00A0. *)
Definition isspace2 (a b : ascii) : bool :=
  let x := nat_of_ascii a in
  let y := nat_of_ascii b in
  (x =? 194)%nat && ((y =? 133)%nat || (y =? 160)%nat).

(** [str.isspace] on a character of three bytes: U+1680, U+2000 to
    U+200A, U+2028, U+2029, U+202F, U+205F and U+3000. *)
Definition isspace3 (a b c : ascii) : bool :=
  let x := nat_of_ascii a in
  let y := nat_of_ascii b in
  let z := nat_of_ascii c in
  ((x =? 225)%nat && (y =? 154)%nat && (z =? 128)%nat)
  || ((x =? 226)%nat && (y =? 128)%nat
      && (((128 <=? z)%nat && (z <=? 138)%nat)
          || (z =? 168)%nat || (z =? 169)%nat || (z =? 175)%nat))
  || ((x =? 226)%nat && (y =? 129)%nat && (z =? 159)%nat)
  || ((x =? 227)%nat && (y =? 128)%nat && (z =? 128)%nat).

(** [s.lstrip()]: the white space characters at the start are removed. *)
Fixpoint lstrip (s : string) : string :=
  match s with
  | String a r =>
      if isspace a then lstrip r
      else
        match r with
        | String b r2 =>
            if isspace2 a b then lstrip r2
            else
              match r2 with
              | String c r3 => if isspace3 a b c then lstrip r3 else s
              | EmptyString => s
              end
        | EmptyString => s
        end
  | EmptyString => EmptyString
  end.

(** [s.rstrip()]: the text is cut where what follows is white space
    only. *)
Fixpoint rstrip (s : string) : string :=
  match s with
  | String c r =>
      match lstrip s with
      | EmptyString => EmptyString
      | _ => String c (rstrip r)
      end
  | EmptyString => EmptyString
  end.

(** [s.strip()] *)
Definition strip (s : string) : string := rstrip (lstrip s).

(** [d.get(field, None)] on the entries of a dict display, read left to
    right: a later entry with an equal key replaces an earlier one. *)
Fixpoint dict_get_from (entries : list (pyval * pyval)) (field : string)
    (found : pyval) : pyval :=
  match entries with
  | [] => found
  | (k, v) :: rest =>
      dict_get_from rest field (if eq_str k field then v else found)
  end.

Definition dict_get (entries : list (pyval * pyval)) (field : string) : pyval :=
  dict_get_from entries field PyNone.

End Py.

(** ** A reader for Python literals

    [ast.literal_eval] is imported, not defined by the program.  The
    table operations below take it as a parameter.  [literal_eval] here
    is a reader for a fragment of the literal grammar, used to run the
    program on concrete tables: [None], [True], [False], decimal integers
    with an optional sign, quoted strings without backslashes, list
    displays and dict displays, separated by spaces or tabs.  It returns
    [None] where the call raises; a text outside the fragment is also
    answered [None]. *)

Module Literal.
Import Py.

Definition is_digit (c : ascii) : bool :=
  let n := nat_of_ascii c in (48 <=? n)%nat && (n <=? 57)%nat.

Definition is_alpha (c : ascii) : bool :=
  let n := nat_of_ascii c in
  ((65 <=? n)%nat && (n <=? 90)%nat) || ((97 <=? n)%nat && (n <=? 122)%nat).

Definition is_word_char (c : ascii) : bool :=
  is_digit c || is_alpha c || Ascii.eqb c "_".

Definition is_blank (c : ascii) : bool :=
  Ascii.eqb c " " || Ascii.eqb c "009".

Fixpoint skip_blank (s : string) : string :=
  match s with
  | String c r => if is_blank c then skip_blank r else s
  | EmptyString => EmptyString
  end.

(** The longest prefix of characters satisfying [p], and the rest. *)
Fixpoint span (p : ascii -> bool) (s : string) : string * string :=
  match s with
  | String c r =>
      if p c then let '(w, rest) := span p r in (String c w, rest)
      else (EmptyString, s)
  | EmptyString => (EmptyString, EmptyString)
  end.

Definition digit_value (c : ascii) : Z := Z.of_nat (nat_of_ascii c) - 48.

Fixpoint digits_value (acc : Z) (s : string) : Z :=
  match s with
  | String c r => digits_value (10 * acc + digit_value c) r
  | EmptyString => acc
  end.

Fixpoint all_chars (p : ascii -> bool) (s : string) : bool :=
  match s with
  | String c r => p c && all_chars p r
  | EmptyString => true
  end.

(** A decimal integer: digits not followed by a word character or a dot,
    without a leading zero unless every digit is zero. *)
Definition read_digits (s : string) : option (Z * string) :=
  let '(ds, rest) := span is_digit s in
  let well_formed :=
    match ds with
    | EmptyString => false
    | String d _ => negb (Ascii.eqb d "0") || all_chars (Ascii.eqb "0") ds
    end in
  let ends :=
    match rest with
    | String c _ => negb (is_word_char c || Ascii.eqb c ".")
    | EmptyString => true
    end in
  if well_formed && ends then Some (digits_value 0 ds, rest) else None.

(** A keyword or a number. *)
Definition read_atom (s : string) : option (pyval * string) :=
  match s with
  | String "-" r =>
      match read_digits (skip_blank r) with
      | Some (n, rest) => Some (PyInt (- n), rest)
      | None => None
      end
  | String "+" r =>
      match read_digits (skip_blank r) with
      | Some (n, rest) => Some (PyInt n, rest)
      | None => None
      end
  | String c _ =>
      if is_digit c then
        match read_digits s with
        | Some (n, rest) => Some (PyInt n, rest)
        | None => None
        end
      else
        let '(w, rest) := span is_word_char s in
        if String.eqb w "None" then Some (PyNone, rest)
        else if String.eqb w "True" then Some (PyBool true, rest)
        else if String.eqb w "False" then Some (PyBool false, rest)
        else None
  | EmptyString => None
  end.

(** The body of a string opened by [quote], up to the closing quote. *)
Fixpoint read_quoted (quote : ascii) (s : string) : option (string * string) :=
  match s with
  | String c r =>
      if Ascii.eqb c quote then Some (EmptyString, r)
      else if Ascii.eqb c "\" || Ascii.eqb c "010" || Ascii.eqb c "013" then None
      else match read_quoted quote r with
           | Some (body, rest) => Some (String c body, rest)
           | None => None
           end
  | EmptyString => None
  end.

(** Keys of a dict must be hashable. *)
Definition hashable (k : pyval) : bool :=
  match k with PyList _ | PyDict _ => false | _ => true end.

Fixpoint read_value (fuel : nat) (s : string) : option (pyval * string) :=
  match fuel with
  | O => None
  | S fuel' =>
      match skip_blank s with
      | String "{" r => read_entries fuel' [] r
      | String "[" r => read_items fuel' [] r
      | String "'" r =>
          match read_quoted "'" r with
          | Some (body, rest) => Some (PyStr body, rest)
          | None => None
          end
      | String "034" r =>
          match read_quoted "034" r with
          | Some (body, rest) => Some (PyStr body, rest)
          | None => None
          end
      | s' => read_atom s'
      end
  end
with read_items (fuel : nat) (acc : list pyval) (s : string)
    : option (pyval * string) :=
  match fuel with
  | O => None
  | S fuel' =>
      match skip_blank s with
      | String "]" rest => Some (PyList (rev acc), rest)
      | s' =>
          match read_value fuel' s' with
          | Some (v, r1) =>
              match skip_blank r1 with
              | String "," r2 => read_items fuel' (v :: acc) r2
              | String "]" rest => Some (PyList (rev (v :: acc)), rest)
              | _ => None
              end
          | None => None
          end
      end
  end
with read_entries (fuel : nat) (acc : list (pyval * pyval)) (s : string)
    : option (pyval * string) :=
  match fuel with
  | O => None
  | S fuel' =>
      match skip_blank s with
      | String "}" rest => Some (PyDict (rev acc), rest)
      | s' =>
          match read_value fuel' s' with
          | Some (k, r1) =>
              if hashable k then
                match skip_blank r1 with
                | String ":" r2 =>
                    match read_value fuel' r2 with
                    | Some (v, r3) =>
                        match skip_blank r3 with
                        | String "," r4 => read_entries fuel' ((k, v) :: acc) r4
                        | String "}" rest => Some (PyDict (rev ((k, v) :: acc)), rest)
                        | _ => None
                        end
                    | None => None
                    end
                | _ => None
                end
              else None
          | None => None
          end
      end
  end.

(** [ast.literal_eval(cell)]: a cell that is not a [str] is rejected. *)
Definition literal_eval (cell : pyval) : option pyval :=
  match cell with
  | PyStr s =>
      match read_value (2 * String.length s + 2) s with
      | Some (v, rest) =>
          match skip_blank rest with
          | EmptyString => Some v
          | _ => None
          end
      | None => None
      end
  | _ => None
  end.

End Literal.

(** ** Tables and the upload normalizer ([DataProcessor]) *)

Module DataProcessor.
Import Py.

(** A DataFrame: named columns, each the list of its cells in row order.
    [df[c] = values] is [<[c := values]> df]; [c in df.columns] is
    [is_Some (df !! c)]. *)
Abbreviation DataFrame := (gmap string (list pyval)).

(** The keys of [extracted_fields], in the order the dict display lists
    them. *)
Definition extracted_field_names : list string :=
  [ "transaction_id"; "transaction_sum"; "property_district";
    "transaction_date"; "property_number_of_rooms";
    "property_number_of_bathrooms"; "property_area"; "building_footprint";
    "price_per_sqm"; "has_celebrity"; "transaction_type";
    "property_building_type_category"; "built_year"; "document_number" ].

(** *** The dtype of an assigned column

    [df[field] = values] stores a Python list as a column of one dtype,
    which pandas infers from what the list holds: [None], an [int] that
    fits 64 bits, a [float], or anything else. *)
Record seen : Type := mkSeen {
  null_ : bool;
  int_ : bool;
  float_ : bool;
  object_ : bool
}.

Definition int64 (z : Z) : bool := ((- 2 ^ 63 <=? z) && (z <? 2 ^ 63))%Z.

Definition saw (s : seen) (v : pyval) : seen :=
  match v with
  | PyNone => mkSeen true (int_ s) (float_ s) (object_ s)
  | PyInt z =>
      if int64 z then mkSeen (null_ s) true (float_ s) (object_ s)
      else mkSeen (null_ s) (int_ s) (float_ s) true
  | PyFloat _ | PyNaN => mkSeen (null_ s) (int_ s) true (object_ s)
  | PyBool _ | PyStr _ | PyList _ | PyDict _ =>
      mkSeen (null_ s) (int_ s) (float_ s) true
  end.

(** [float(z)], by its exact value: [z] itself when it has at most 53
    significant bits, else [z] rounded to 53 significant bits, ties to
    even. *)
Definition float_of_int (z : Z) : Q :=
  let bits := (Z.log2 (Z.abs z) + 1)%Z in
  if (bits <=? 53)%Z then inject_Z z
  else
    let unit := (2 ^ (bits - 53))%Z in
    let q := (z / unit)%Z in
    let r := (z mod unit)%Z in
    let up :=
      match (2 * r ?= unit)%Z with
      | Lt => false
      | Gt => true
      | Eq => Z.odd q
      end in
    inject_Z ((if up then q + 1 else q) * unit).

Definition to_float64 (v : pyval) : pyval :=
  match v with
  | PyInt z => PyFloat (float_of_int z)
  | PyNone => PyNaN
  | other => other
  end.

(** The cells of the column stored for [values].  Numbers become a
    float64 column as soon as a [float] or a [None] is among them: each
    [int] is converted and each [None] becomes NaN.  Every other list is
    stored as it is: integers alone (int64), [None] alone, and lists
    holding anything that is not a number (object; a list of [str] and
    [None] is an object column as long as pandas does not infer its
    string dtype for it). *)
Definition coerce_column (values : list pyval) : list pyval :=
  let s := fold_left saw values (mkSeen false false false false) in
  if negb (object_ s) && (float_ s || (int_ s && null_ s))
  then List.map to_float64 values
  else values.

Section WithLiteralReader.

(** [ast.literal_eval]; [None] when it raises. *)
Variable literal_eval : pyval -> option pyval.

(** [series.apply(ast.literal_eval)]: cells are converted in row order and
    the first exception leaves the call. *)
Fixpoint apply_literal_eval (cells : list pyval) : py_exception + list pyval :=
  match cells with
  | [] => inr []
  | cell :: rest =>
      match literal_eval cell with
      | None => inl (LiteralError cell)
      | Some v =>
          match apply_literal_eval rest with
          | inl e => inl e
          | inr vs => inr (v :: vs)
          end
      end
  end.

(** The loop over [df.iterrows()]: every row appends one value to each
    list of [extracted_fields]; [data.get] exists on a dict only. *)
Fixpoint extract_rows (rows : list pyval)
    (extracted_fields : list (string * list pyval))
    : py_exception + list (string * list pyval) :=
  match rows with
  | [] => inr extracted_fields
  | data :: rest =>
      match data with
      | PyDict entries =>
          extract_rows rest
            (List.map (fun '(field, values) =>
                         (field, (values ++ [dict_get entries field])%list))
                      extracted_fields)
      | _ => inl (AttributeError data "get")
      end
  end.

(** [for field, values in extracted_fields.items(): df[field] = values] *)
Definition assign_columns (df : DataFrame)
    (extracted_fields : list (string * list pyval)) : DataFrame :=
  fold_left (fun d '(field, values) => <[field := coerce_column values]> d)
            extracted_fields df.

(** [DataProcessor.process_json_column(df, column_idx)]: the table it
    returns and what it reports.  The table is updated in place, so a
    column assigned before an exception stays. *)
Definition process_json_column (df : DataFrame) (column_idx : string)
    : DataFrame * list st_message :=
  let report e := [StError "Error processing JSON data: " e] in
  match df !! column_idx with
  | None => (df, report (KeyError column_idx))
  | Some cells =>
      match apply_literal_eval cells with
      | inl e => (df, report e)
      | inr property_data =>
          let df1 := <["property_data" := property_data]> df in
          match extract_rows property_data
                  (List.map (fun field => (field, [])) extracted_field_names) with
          | inl e => (df1, report e)
          | inr extracted => (assign_columns df1 extracted, [])
          end
      end
  end.

(** [lambda x: x.strip() if isinstance(x, str) else ''] *)
Definition strip_or_empty (x : pyval) : pyval :=
  match x with
  | PyStr s => PyStr (strip s)
  | _ => PyStr ""
  end.

(** [DataProcessor.clean_description(df)] *)
Definition clean_description (df : DataFrame) : DataFrame :=
  match df !! "1" with
  | Some cells => <["description" := List.map strip_or_empty cells]> df
  | None => df
  end.

(** [DataProcessor.process_alert(df)] *)
Definition process_alert (df : DataFrame) : DataFrame :=
  match df !! "2" with
  | Some cells => <["newsworthy_alert" := List.map strip_or_empty cells]> df
  | None => df
  end.

(** The upload branch of [main] on the table read from the file: the
    three steps, then [st.success]. *)
Definition process_upload (df : DataFrame) : DataFrame * list st_message :=
  let '(df1, reported) := process_json_column df "0" in
  let df2 := clean_description df1 in
  let df3 := process_alert df2 in
  (df3, (reported ++ [StSuccess "✅ File uploaded and processed successfully!"])%list).

End WithLiteralReader.

(** [lambda x: "No" if x == '0' else x] *)
Definition has_celebrity_value (x : pyval) : pyval :=
  if eq_str x "0" then PyStr "No" else x.

(** The [has_celebrity] step of [main]. *)
Definition normalize_has_celebrity (df : DataFrame) : DataFrame :=
  match df !! "has_celebrity" with
  | Some cells => <["has_celebrity" := List.map has_celebrity_value cells]> df
  | None => df
  end.

(** The cell of column [c] at row [i], when both exist. *)
Definition cell (df : DataFrame) (c : string) (i : nat) : option pyval :=
  match df !! c with
  | Some cells => cells !! i
  | None => None
  end.

End DataProcessor.

(** ** The queried table: dates, filters and district statistics *)

Module Engine.

(** A [datetime.date]. *)
Record date : Type := mkDate { year : nat; month : nat; day : nat }.

Definition decimal (n : nat) : string :=
  NilEmpty.string_of_uint (Nat.to_uint n).

Fixpoint zeros (k : nat) : string :=
  match k with
  | O => EmptyString
  | S k' => String "0" (zeros k')
  end.

(** ["%0<width>d" % n] for a number that is not negative. *)
Definition zero_pad (width : nat) (n : nat) : string :=
  let digits := decimal n in
  zeros (width - String.length digits) +:+ digits.

(** [str(d)] for a date: [d.isoformat()], that is ["%04d-%02d-%02d"]. *)
Definition date_str (d : date) : string :=
  zero_pad 4 (year d) +:+ "-" +:+ zero_pad 2 (month d) +:+ "-" +:+ zero_pad 2 (day d).

(** A cell of [created_date] under [astype(str)]; a missing date is
    [NaT]. *)
Definition astype_str (d : option date) : string :=
  match d with
  | Some d => date_str d
  | None => "NaT"
  end.

(** One row of the table [load_and_process_bigquery_data] returns, with
    the columns of its SELECT.  FLOAT64 cells carry the exact value of the
    float, [None] stands for NULL / NaN. *)
Record Transaction : Type := mkTransaction {
  newsworthy_alert : option string;
  transaction_id : option string;
  property_description : option string;
  property_details : option string;
  is_newsworthy : option bool;
  feedback : option string;
  created_date : option date;
  document_number : option string;
  transaction_sum : option Q;
  property_district : option string;
  property_building_type_category : option string;
  price_per_sqm : option Q;
  property_area : option Q;
  transaction_type : option string;
  property_number_of_rooms : option Z;
  building_footprint : option Q;
  built_year : option string;
  has_celebrity : option string
}.

(** *** Filters *)

(** [series.isin(values)] on one cell; a missing cell is in no list of
    strings. *)
Definition isin (x : option string) (values : list string) : bool :=
  match x with
  | Some s => existsb (String.eqb s) values
  | None => false
  end.

(** Truth value of a list: [if district_filter:]. *)
Definition nonempty {A : Type} (l : list A) : bool :=
  match l with [] => false | _ => true end.

(** [x >= bound] and [x <= bound] on one cell; a comparison with NaN is
    false. *)
Definition ge_cell (x : option Q) (bound : Z) : bool :=
  match x with
  | Some q => Qle_bool (inject_Z bound) q
  | None => false
  end.

Definition le_cell (x : option Q) (bound : Z) : bool :=
  match x with
  | Some q => Qle_bool q (inject_Z bound)
  | None => false
  end.

(** [df[mask]]: the rows whose mask is true, in their order. *)
Definition select (mask : Transaction -> bool) (df : list Transaction)
    : list Transaction :=
  List.filter mask df.

Definition district_mask (district_filter : list string) (r : Transaction) : bool :=
  isin (property_district r) district_filter.

Definition type_mask (type_filter : list string) (r : Transaction) : bool :=
  isin (property_building_type_category r) type_filter.

Definition date_mask (date_filter : list string) (r : Transaction) : bool :=
  isin (Some (astype_str (created_date r))) date_filter.

Definition price_mask (price_range : Z * Z) (r : Transaction) : bool :=
  ge_cell (transaction_sum r) (fst price_range)
  && le_cell (transaction_sum r) (snd price_range).

(** The "Apply filters" block of [main]. *)
Definition apply_filters (df : list Transaction)
    (district_filter type_filter date_filter : list string)
    (price_range : Z * Z) : list Transaction :=
  let filtered_df := df in
  let filtered_df :=
    if nonempty district_filter
    then select (district_mask district_filter) filtered_df else filtered_df in
  let filtered_df :=
    if nonempty type_filter
    then select (type_mask type_filter) filtered_df else filtered_df in
  let filtered_df :=
    if nonempty date_filter
    then select (date_mask date_filter) filtered_df else filtered_df in
  select (price_mask price_range) filtered_df.

(** [series.min()] and [series.max()]: missing cells are skipped; the
    result is NaN when nothing is left. *)
Definition Qmin_opt (acc : option Q) (x : option Q) : option Q :=
  match acc, x with
  | Some a, Some q => Some (if Qle_bool a q then a else q)
  | None, q => q
  | a, None => a
  end.

Definition Qmax_opt (acc : option Q) (x : option Q) : option Q :=
  match acc, x with
  | Some a, Some q => Some (if Qle_bool q a then a else q)
  | None, q => q
  | a, None => a
  end.

Definition series_min (cells : list (option Q)) : option Q :=
  fold_left Qmin_opt cells None.

Definition series_max (cells : list (option Q)) : option Q :=
  fold_left Qmax_opt cells None.

(** [int(x)] on a finite float: truncation toward zero. *)
Definition py_int (q : Q) : Z := Z.quot (Qnum q) (Z.pos (Qden q)).

(** The default [value] of the price slider; [None] when [int] is applied
    to NaN and raises. *)
Definition default_price_range (df : list Transaction) : option (Z * Z) :=
  let sums := List.map transaction_sum df in
  match series_min sums, series_max sums with
  | Some lo, Some hi => Some (py_int lo, py_int hi)
  | _, _ => None
  end.

(** *** District statistics *)

(** One pass of [groupby('property_district')]: a row joins the rows of
    its district, after those already there; a row with a missing key
    belongs to no group. *)
Definition group_step (groups : gmap string (list Transaction)) (r : Transaction)
    : gmap string (list Transaction) :=
  match property_district r with
  | Some d => <[d := (default [] (groups !! d) ++ [r])%list]> groups
  | None => groups
  end.

Definition groupby_district (df : list Transaction)
    : gmap string (list Transaction) :=
  fold_left group_step df ∅.

(** Order of the group keys: strings compared character by character. *)
Definition key_le (a b : string * list Transaction) : Prop :=
  String.leb (fst a) (fst b) = true.

#[global] Instance key_le_dec a b : Decision (key_le a b).
Proof. unfold key_le. apply _. Defined.

Record district_row : Type := mkRow {
  mean_price_per_sqm : option Q;
  mean_transaction_sum : option Q;
  mean_property_number_of_rooms : option Q
}.

Section Aggregation.

(** ['mean'] and [.round(2)] are computed by pandas and numpy in float64:
    the sum of a group is accumulated in floating point, in an order and
    with a compensation that the library chooses, and the rounding works
    on the float.  Neither is defined by the program; they are taken as
    parameters.  [mean] is given the cells of a FLOAT64 column of one
    group that are present, in row order, and [mean_int] those of an INT64
    column; the answer [None] is NaN.  [round2] is given one finite
    value. *)
Variable mean : list Q -> option Q.
Variable mean_int : list Z -> option Q.
Variable round2 : Q -> Q.

(** The three aggregated columns of one group. *)
Definition aggregate (rows : list Transaction) : district_row :=
  mkRow (option_map round2 (mean (omap price_per_sqm rows)))
        (option_map round2 (mean (omap transaction_sum rows)))
        (option_map round2 (mean_int (omap property_number_of_rooms rows))).

(** [df.groupby('property_district').agg({...: 'mean'}).round(2)]: one
    row per district, in ascending order of the district. *)
Definition district_stats (df : list Transaction) : list (string * district_row) :=
  List.map (fun '(d, rows) => (d, aggregate rows))
           (merge_sort key_le (map_to_list (groupby_district df))).

End Aggregation.

(** *** The texts of numbers *)

(** Rounding to the nearest integer, ties to even. *)
Definition round_half_even (q : Q) : Z :=
  let f := Qfloor q in
  match Qcompare (q - inject_Z f)%Q (1 # 2)%Q with
  | Lt => f
  | Gt => (f + 1)%Z
  | Eq => if Z.even f then f else (f + 1)%Z
  end.

(** Commas between groups of three digits, on the digits in reverse. *)
Fixpoint commas_rev (digits_rev : list ascii) (position : nat) : list ascii :=
  match digits_rev with
  | [] => []
  | c :: rest =>
      if (0 <? position)%nat && (position mod 3 =? 0)%nat
      then ","%char :: c :: commas_rev rest (S position)
      else c :: commas_rev rest (S position)
  end.

Definition with_commas (digits : string) : string :=
  string_of_list_ascii (rev (commas_rev (rev (list_ascii_of_string digits)) 0)).

(** [f"{x:,.0f}"] with [grouping] and no decimals, [f"{x:.1f}"] without
    grouping and with one decimal; a NaN is written [nan]. *)
Definition format_fixed (grouping : bool) (decimals : nat) (x : option Q) : string :=
  match x with
  | None => "nan"
  | Some q =>
      let scale := (10 ^ Z.of_nat decimals)%Z in
      let n := round_half_even (Qabs q * inject_Z scale)%Q in
      let whole := decimal (Z.to_nat (n / scale)) in
      (if Qle_bool 0 q then "" else "-")
      +:+ (if grouping then with_commas whole else whole)
      +:+ (match decimals with
           | O => ""
           | S _ => "." +:+ zero_pad decimals (Z.to_nat (n mod scale))
           end)
  end.

End Engine.

(** ** Reading a date back from its text

    The inverse of [astype_str], used to compare selections of dates with
    selections of their texts. *)

Module IsoDate.
Import Engine.






End IsoDate.

#[global] Instance date_eq_dec : EqDecision Engine.date.
Proof. solve_decision. Defined.

(** ** The feedback update *)

Module Feedback.
Import Py Engine.

Definition newline : string := String "010" EmptyString.

(** [str(b)] for a [bool]. *)
Definition bool_str (b : bool) : string := if b then "True" else "False".

(** [s.replace("'", "''")] *)
Fixpoint double_quotes (s : string) : string :=
  match s with
  | String c r =>
      if Ascii.eqb c "'" then String "'" (String "'" (double_quotes r))
      else String c (double_quotes r)
  | EmptyString => EmptyString
  end.

(** [explanation.replace("'", "''") if explanation else ""]; the
    explanation is a [str] or [None]. *)
Definition escaped_explanation (explanation : option string) : string :=
  match explanation with
  | Some e => double_quotes e
  | None => ""
  end.

(** The text of [update_query]. *)
Definition update_query (transaction_id feedback_label : string)
    (explanation : option string) : string :=
  newline +:+
  "    UPDATE `real-estate-alerter.real_estate_alerter_output.newsworthy`" +:+ newline +:+
  "    SET " +:+ newline +:+
  "        is_newsworthy = " +:+ bool_str (String.eqb feedback_label "Newsworthy") +:+ "," +:+ newline +:+
  "        feedback = '" +:+ escaped_explanation explanation +:+ "'" +:+ newline +:+
  "    WHERE transaction_id = '" +:+ transaction_id +:+ "'" +:+ newline +:+
  "    ".

(** *** How the store reads a statement

    The statement is sent to BigQuery as text.  The lexical rules below
    are those of its SQL dialect for the constructs the statement can
    contain: blanks, line comments ([--] and [#]), words, identifiers in
    backquotes, and string literals in single or double quotes, one-line or
    triple-quoted, in which a backslash starts an escape sequence.  A
    quote is not escaped by doubling it.  Block comments, prefixed
    literals and numeric escapes are outside this fragment. *)

Inductive sql_token : Type :=
| TWord (w : string)
| TQuotedId (name : string)
| TString (value : string)
| TSymbol (c : ascii)
| TBad.

Inductive lex_mode : Type :=
| LDefault
| LWord (acc : string)
| LQuotedId (acc : string)
| LComment
| LString (quote : ascii) (acc : string)
| LStringEsc (quote : ascii) (acc : string)
| LTripleOpen (quote : ascii) (to_skip : nat)
| LTriple (quote : ascii) (acc : string) (pending : nat)
| LTripleEsc (quote : ascii) (acc : string).

Definition snoc (s : string) (c : ascii) : string := s +:+ String c EmptyString.

Definition is_sql_blank (c : ascii) : bool :=
  Ascii.eqb c " " || Ascii.eqb c "009" || Ascii.eqb c "010" || Ascii.eqb c "013".

Definition starts_with (c : ascii) (s : string) : bool :=
  match s with String d _ => Ascii.eqb c d | EmptyString => false end.

Definition starts_with2 (c : ascii) (s : string) : bool :=
  match s with String d r => Ascii.eqb c d && starts_with c r | EmptyString => false end.

(** The character an escape sequence stands for. *)
Definition escape_char (c : ascii) : option ascii :=
  if Ascii.eqb c "'" || Ascii.eqb c "034" || Ascii.eqb c "\" || Ascii.eqb c "`"
     || Ascii.eqb c "?" then Some c
  else if Ascii.eqb c "n" then Some "010"%char
  else if Ascii.eqb c "r" then Some "013"%char
  else if Ascii.eqb c "t" then Some "009"%char
  else if Ascii.eqb c "a" then Some "007"%char
  else if Ascii.eqb c "b" then Some "008"%char
  else if Ascii.eqb c "f" then Some "012"%char
  else if Ascii.eqb c "v" then Some "011"%char
  else None.

(** Reading the character [c], followed by [rest], outside any token. *)
Definition lex_start (c : ascii) (rest : string) : list sql_token * lex_mode :=
  if is_sql_blank c then ([], LDefault)
  else if Ascii.eqb c "'" || Ascii.eqb c "034" then
    if starts_with2 c rest then ([], LTripleOpen c 2) else ([], LString c "")
  else if Ascii.eqb c "`" then ([], LQuotedId "")
  else if Ascii.eqb c "#" then ([], LComment)
  else if Ascii.eqb c "-" && starts_with "-" rest then ([], LComment)
  else if Literal.is_word_char c then ([], LWord (String c ""))
  else ([TSymbol c], LDefault).

Fixpoint lex (mode : lex_mode) (s : string) : list sql_token :=
  match s with
  | EmptyString =>
      match mode with
      | LDefault | LComment => []
      | LWord acc => [TWord acc]
      | _ => [TBad]
      end
  | String c rest =>
      match mode with
      | LDefault =>
          let '(out, mode') := lex_start c rest in (out ++ lex mode' rest)%list
      | LWord acc =>
          if Literal.is_word_char c then lex (LWord (snoc acc c)) rest
          else
            let '(out, mode') := lex_start c rest in
            (TWord acc :: out ++ lex mode' rest)%list
      | LQuotedId acc =>
          if Ascii.eqb c "`" then TQuotedId acc :: lex LDefault rest
          else lex (LQuotedId (snoc acc c)) rest
      | LComment =>
          if Ascii.eqb c "010" then lex LDefault rest else lex LComment rest
      | LString quote acc =>
          if Ascii.eqb c "\" then lex (LStringEsc quote acc) rest
          else if Ascii.eqb c quote then TString acc :: lex LDefault rest
          else if Ascii.eqb c "010" || Ascii.eqb c "013" then TBad :: lex LDefault rest
          else lex (LString quote (snoc acc c)) rest
      | LStringEsc quote acc =>
          match escape_char c with
          | Some d => lex (LString quote (snoc acc d)) rest
          | None => TBad :: lex (LString quote acc) rest
          end
      | LTripleOpen quote to_skip =>
          match to_skip with
          | S (S k) => lex (LTripleOpen quote (S k)) rest
          | _ => lex (LTriple quote "" 0) rest
          end
      | LTriple quote acc pending =>
          if Ascii.eqb c quote then
            match pending with
            | S (S _) => TString acc :: lex LDefault rest
            | _ => lex (LTriple quote acc (S pending)) rest
            end
          else
            let acc' := acc +:+ String.concat "" (repeat (String quote "") pending) in
            if Ascii.eqb c "\" then lex (LTripleEsc quote acc') rest
            else lex (LTriple quote (snoc acc' c) 0) rest
      | LTripleEsc quote acc =>
          match escape_char c with
          | Some d => lex (LTriple quote (snoc acc d) 0) rest
          | None => TBad :: lex (LTriple quote acc 0) rest
          end
      end
  end.

Definition sql_tokens (text : string) : list sql_token := lex LDefault text.


(** *** The update the store carries out *)

Record update_statement : Type := mkUpdate {
  upd_table : string;
  upd_is_newsworthy : bool;
  upd_feedback : string;
  upd_transaction_id : string
}.

Definition upper_char (c : ascii) : ascii :=
  let n := nat_of_ascii c in
  if (97 <=? n)%nat && (n <=? 122)%nat then ascii_of_nat (n - 32) else c.

Fixpoint upper (s : string) : string :=
  match s with
  | String c r => String (upper_char c) (upper r)
  | EmptyString => EmptyString
  end.

(** Keywords and column names are compared without regard to case. *)
Definition expect_word (keyword : string) (toks : list sql_token)
    : option (list sql_token) :=
  match toks with
  | TWord w :: rest => if String.eqb (upper w) keyword then Some rest else None
  | _ => None
  end.

Definition expect_symbol (c : ascii) (toks : list sql_token)
    : option (list sql_token) :=
  match toks with
  | TSymbol d :: rest => if Ascii.eqb c d then Some rest else None
  | _ => None
  end.

Definition take_quoted_id (toks : list sql_token) : option (string * list sql_token) :=
  match toks with
  | TQuotedId name :: rest => Some (name, rest)
  | _ => None
  end.

Definition take_string (toks : list sql_token) : option (string * list sql_token) :=
  match toks with
  | TString v :: rest => Some (v, rest)
  | _ => None
  end.

Definition take_bool (toks : list sql_token) : option (bool * list sql_token) :=
  match toks with
  | TWord w :: rest =>
      if String.eqb (upper w) "TRUE" then Some (true, rest)
      else if String.eqb (upper w) "FALSE" then Some (false, rest)
      else None
  | _ => None
  end.

(** The part of the statement after the table:
    [SET is_newsworthy = b, feedback = 's' WHERE transaction_id = 'k']. *)
Definition read_assignments (table : string) (toks : list sql_token)
    : option update_statement :=
  toks ← expect_word "SET" toks;
  toks ← expect_word "IS_NEWSWORTHY" toks;
  toks ← expect_symbol "=" toks;
  '(b, toks) ← take_bool toks;
  toks ← expect_symbol "," toks;
  toks ← expect_word "FEEDBACK" toks;
  toks ← expect_symbol "=" toks;
  '(explanation, toks) ← take_string toks;
  toks ← expect_word "WHERE" toks;
  toks ← expect_word "TRANSACTION_ID" toks;
  toks ← expect_symbol "=" toks;
  '(key, toks) ← take_string toks;
  match toks with
  | [] => Some (mkUpdate table b explanation key)
  | _ => None
  end.

(** A statement of the form
    [UPDATE `t` SET is_newsworthy = b, feedback = 's' WHERE transaction_id = 'k'];
    any other token sequence is not accepted. *)
Definition read_update (toks : list sql_token) : option update_statement :=
  toks ← expect_word "UPDATE" toks;
  '(table, toks) ← take_quoted_id toks;
  read_assignments table toks.

(** The store: the rows of each table, by the full name of the table. *)
Abbreviation store := (gmap string (list Transaction)).

Definition set_feedback (r : Transaction) (b : bool) (text : string) : Transaction :=
  mkTransaction (newsworthy_alert r) (transaction_id r) (property_description r)
    (property_details r) (Some b) (Some text) (created_date r)
    (document_number r) (transaction_sum r) (property_district r)
    (property_building_type_category r) (price_per_sqm r) (property_area r)
    (transaction_type r) (property_number_of_rooms r) (building_footprint r)
    (built_year r) (has_celebrity r).

(** One row under the update: a row whose [transaction_id] is NULL
    matches no key. *)
Definition update_row (u : update_statement) (r : Transaction) : Transaction :=
  match transaction_id r with
  | Some k =>
      if String.eqb k (upd_transaction_id u)
      then set_feedback r (upd_is_newsworthy u) (upd_feedback u)
      else r
  | None => r
  end.

Section WithStore.

(** [pandas_gbq.read_gbq(text)] for an update: the store afterwards, and
    the exception raised.  A text the store reads as the single UPDATE
    above is carried out on the table it names, and is an error when the
    store has no such table.  What the store does with any other text (a
    script of several statements, a statement of another form, a text it
    rejects) is not modelled: it is the parameter [run_other]. *)
Variable run_other : store -> string -> store * option py_exception.

Definition run_query (st : store) (text : string) : store * option py_exception :=
  match read_update (sql_tokens text) with
  | Some u =>
      match st !! upd_table u with
      | Some rows => (<[upd_table u := List.map (update_row u) rows]> st, None)
      | None => (st, Some (QueryError text))
      end
  | None => run_other st text
  end.

(** [update_feedback_in_bigquery(transaction_id, feedback_label, explanation)]:
    the store afterwards, what the page shows, and the exception raised
    again to the caller. *)
Definition update_feedback_in_bigquery (st : store)
    (transaction_id feedback_label : string) (explanation : option string)
    : store * list st_message * option py_exception :=
  let update_query := update_query transaction_id feedback_label explanation in
  match run_query st update_query with
  | (st', None) => (st', [], None)
  | (st', Some e) =>
      (st', [StErrorText ("Update query failed: " +:+ update_query)], Some e)
  end.

(** *** The feedback section of [main] *)

Definition project_id : string := "real-estate-alerter".

(** [f"{project_id}.real_estate_alerter_output.{table_name}"] *)
Definition full_table_name (table_name : string) : string :=
  project_id +:+ ".real_estate_alerter_output." +:+ table_name.

(** ["newsworthy" if table_option == "Newsworthy" else "non_newsworthy"] *)
Definition table_name_of (table_option : string) : string :=
  if String.eqb table_option "Newsworthy" then "newsworthy" else "non_newsworthy".

(** The rows [load_and_process_bigquery_data(table_name)] reads. *)
Definition load_and_process_bigquery_data (st : store) (table_name : string)
    : option (list Transaction) :=
  st !! full_table_name table_name.

(** Python truth value of [transaction_id]. *)
Definition truthy (x : option string) : option string :=
  match x with
  | Some EmptyString => None
  | other => other
  end.

(** [feedback.get('score') == s] *)
Definition score_equals (score : option string) (s : string) : bool :=
  match score with
  | Some t => String.eqb t s
  | None => false
  end.

(** The feedback section for the row at position [selected_property] of
    [df].  [widget] is what [streamlit_feedback] returned: nothing, or a
    dict, given by its [score] when it has one.  A position outside the
    table raises before any update. *)
Definition submit_feedback (st : store) (df : list Transaction)
    (selected_property : nat) (widget : option (option string))
    (explanation : option string) : store * list st_message :=
  match df !! selected_property with
  | None => (st, [])
  | Some property_data =>
      match widget with
      | None => (st, [])
      | Some score =>
          let feedback_label :=
            if score_equals score "👍" then "Newsworthy" else "Not newsworthy" in
          match truthy (transaction_id property_data) with
          | Some tid =>
              match update_feedback_in_bigquery st tid feedback_label explanation with
              | (st', shown, None) =>
                  (st', (shown ++ [StSuccess "✅ Feedback submitted successfully!"])%list)
              | (st', shown, Some e) =>
                  (st', (shown ++ [StError "Error submitting feedback: " e])%list)
              end
          | None =>
              (st, [StErrorText "Error: Transaction ID not found in property data."])
          end
      end
  end.

End WithStore.

End Feedback.

(** ** Concrete inputs used below *)

Module Examples.
Import Py DataProcessor Engine Feedback.

(** The uploaded row of the specification's example. *)
Definition example_upload : DataFrame :=
  <["0" := [PyStr "{'transaction_id': 'T1', 'transaction_sum': 5000000, 'property_district': 'Frogner'}"]]>
  (<["1" := [PyStr " A nice flat "]]>
  (<["2" := [PyStr " Celebrity sale "]]> ∅)).

(** An upload of two rows: the mapping of the first row is well formed,
    the mapping of the second row is cut short. *)
Definition good_mapping : pyval := PyStr "{'transaction_id': 'T1'}".
Definition bad_mapping : pyval := PyStr "{".

Definition broken_upload : DataFrame :=
  <["0" := [good_mapping; bad_mapping]]>
  (<["1" := [PyStr " first "; PyStr " second "]]>
  (<["2" := [PyStr " alert one "; PyStr " alert two "]]> ∅)).

(** An upload whose mapping stores the celebrity flag as a number. *)
Definition numeric_flag_upload : DataFrame :=
  <["0" := [PyStr "{'transaction_id': 'T7', 'has_celebrity': 0}"]]> ∅.

(** A row with the given district, sum, price per square metre and
    rooms, every other column null. *)
Definition row (id : string) (district : option string) (sum price : option Q)
    (rooms : option Z) : Transaction :=
  mkTransaction None (Some id) None None None None None None sum district
    None price None None rooms None None None.

(** Three sums and a row without a sum. *)
Definition priced_rows : list Transaction :=
  [ row "A" (Some "Frogner") (Some 1000000%Q) None None;
    row "B" (Some "Frogner") None None None;
    row "C" (Some "Sentrum") (Some 2500000%Q) None None;
    row "D" (Some "Sentrum") (Some 9000000%Q) None None ].



(** A store with both tables; the record T9 is in both, T1 only in
    [newsworthy]. *)
Definition stored (id old_feedback : string) : Transaction :=
  mkTransaction None (Some id) None None (Some false) (Some old_feedback)
    None None None None None None None None None None None None.

Definition example_store : store :=
  <[full_table_name "newsworthy" := [stored "T1" "old"; stored "T9" "kept"]]>
  (<[full_table_name "non_newsworthy" := [stored "T9" "seen"]]> ∅).

(** An explanation that closes the literal with an escaped quote and goes
    on with SQL of its own. *)
Definition injected_explanation : string :=
  "\' WHERE TRUE; SELECT 1 FROM (SELECT CAST(NULL AS STRING) AS transaction_id) -- ".




(** A store that raises on every text it does not read as the single
    UPDATE, for running the program on texts that are. *)
Definition reject_other (st : store) (text : string)
    : store * option py_exception :=
  (st, Some (QueryError text)).

End Examples.

(** ** Statements of the specification that the properties refer to *)

Module Contract.
Import Py DataProcessor.

(** Row isolation as the specification words it: in the table the upload
    produces, a row whose mapping converts to a dict has the fields of
    that dict, and a row whose mapping does not convert has every
    extracted field null. *)
Definition parse_failures_isolated (literal_eval : pyval -> option pyval)
    (df : DataFrame) : Prop :=
  let out := fst (process_upload literal_eval df) in
  forall i source, cell df "0" i = Some source ->
    match literal_eval source with
    | Some (PyDict entries) =>
        forall field, In field extracted_field_names ->
          cell out field i = Some (dict_get entries field)
    | Some _ => True
    | None =>
        forall field, In field extracted_field_names ->
          cell out field i = Some PyNone
    end.

(** The value a parsed mapping gives for a field. *)
Definition field_of (field : string) (data : pyval) : pyval :=
  match data with
  | PyDict entries => dict_get entries field
  | _ => PyNone
  end.

Definition is_dict (data : pyval) : Prop := exists entries, data = PyDict entries.

(** The conjunction of the four dimension predicates: a dimension whose
    selection is empty constrains nothing, the price interval is closed. *)
Definition passes (district_filter type_filter date_filter : list string)
    (price_range : Z * Z) (r : Engine.Transaction) : bool :=
  (negb (Engine.nonempty district_filter)
   || Engine.isin (Engine.property_district r) district_filter)
  && (negb (Engine.nonempty type_filter)
      || Engine.isin (Engine.property_building_type_category r) type_filter)
  && (negb (Engine.nonempty date_filter)
      || Engine.isin (Some (Engine.astype_str (Engine.created_date r))) date_filter)
  && Engine.price_mask price_range r.

(** The second half of the statement on null sums, as the specification
    words it: under the default range, spanning the minimum and maximum of
    the table, a row with a null [transaction_sum] is kept. *)
Definition null_sum_kept_by_full_range (df : list Engine.Transaction) : Prop :=
  forall price_range r,
    Engine.default_price_range df = Some price_range ->
    In r df -> Engine.transaction_sum r = None ->
    In r (Engine.apply_filters df [] [] [] price_range).

(** The rows of a district, in their order. *)
Definition in_district (d : string) (df : list Engine.Transaction)
    : list Engine.Transaction :=
  List.filter (fun r => bool_decide (Engine.property_district r = Some d)) df.

(** The structure of a statement: its tokens, with the text of each
    string literal left out. *)
Definition shape_of (t : Feedback.sql_token) : Feedback.sql_token :=
  match t with
  | Feedback.TString _ => Feedback.TString ""
  | other => other
  end.

Definition statement_shape (text : string) : list Feedback.sql_token :=
  List.map shape_of (Feedback.sql_tokens text).

(** The explanation as the specification wants it confined: whatever it
    is, the statement has the structure it has without an explanation. *)
Definition explanation_confined (transaction_id feedback_label : string) : Prop :=
  forall explanation,
    statement_shape
      (Feedback.update_query transaction_id feedback_label explanation)
    = statement_shape (Feedback.update_query transaction_id feedback_label None).

(** Text without a quote, a backslash or a line break. *)
Definition plain_char (c : ascii) : bool :=
  negb (Ascii.eqb c "'" || Ascii.eqb c "\" || Ascii.eqb c "010"
        || Ascii.eqb c "013").

Definition plain (s : string) : Prop := Literal.all_chars plain_char s = true.

(** The tokens read from the text that follows an opening single quote. *)
Definition after_open_quote (text : string) : list Feedback.sql_token :=
  let '(out, mode) := Feedback.lex_start "'" text in
  (out ++ Feedback.lex mode text)%list.

(** The table every feedback update names. *)
Definition newsworthy_table : string :=
  "real-estate-alerter.real_estate_alerter_output.newsworthy".

End Contract.

(** ** The pages of [main]: overview buttons and the detail view *)

Module Page.
Import Py Engine.

(** *** Text operations of the detail view *)

(** The rest of [s] after the prefix [p], when [s] starts with [p]. *)
Fixpoint strip_prefix (p s : string) : option string :=
  match p with
  | EmptyString => Some s
  | String a p' =>
      match s with
      | String b s' => if Ascii.eqb a b then strip_prefix p' s' else None
      | EmptyString => None
      end
  end.

(** [s.partition(sep)] for a separator that occurs: the text before the
    first occurrence of [sep] and the text after it; [None] when [sep]
    does not occur. *)
Fixpoint partition (sep s : string) : option (string * string) :=
  match strip_prefix sep s with
  | Some rest => Some (EmptyString, rest)
  | None =>
      match s with
      | String c r =>
          match partition sep r with
          | Some (before, rest) => Some (String c before, rest)
          | None => None
          end
      | EmptyString => None
      end
  end.

(** [sep in s] *)
Definition contains (sep s : string) : bool :=
  match partition sep s with Some _ => true | None => false end.

(** What the group of the pattern matches at the start of [s]: any
    characters but a line feed, as many as there are. *)
Fixpoint to_line_end (s : string) : string :=
  match s with
  | String c r => if Ascii.eqb c "010" then EmptyString else String c (to_line_end r)
  | EmptyString => EmptyString
  end.

(** [s.split(sep)] for a separator of one character. *)
Fixpoint split (sep : ascii) (s : string) : list string :=
  match s with
  | EmptyString => [EmptyString]
  | String c r =>
      if Ascii.eqb c sep then EmptyString :: split sep r
      else match split sep r with
           | w :: ws => String c w :: ws
           | [] => [String c EmptyString]
           end
  end.

Definition marker : string := "Additional details about the property".

(** One pass of the loop over [details_lines]. *)
Definition format_line (line : string) : string :=
  match partition ":" line with
  | Some (key, value) =>
      "**" +:+ strip key +:+ "**: " +:+ strip value +:+ String "010" ""
  | None => strip line +:+ String "010" ""
  end.

(** [formatted_details] for a description that contains the marker. *)
Definition formatted_details (description : string) : string :=
  match partition (marker +:+ ": ") description with
  | Some (_, rest) =>
      String.concat "" (List.map format_line (split " " (to_line_end rest)))
  | None => ""
  end.

(** [description.split(marker)[0]] *)
Definition main_description (description : string) : string :=
  match partition marker description with
  | Some (before, _) => before
  | None => description
  end.

(** What the detail view puts on the page. *)
Inductive st_output : Type :=
| Subheader (text : string)
| Write (text : string)
| Markdown (text : string)
| Warning (text : string).

(** The "Property Description" block for the cell of
    [property_description]. *)
Definition render_description (cell : option string) : list st_output :=
  match cell with
  | None | Some EmptyString => []
  | Some description =>
      Subheader "Property Description" ::
      (if contains marker description then
         [ Write (main_description description);
           Markdown ("### Additional Details" +:+ String "010" ""
                     +:+ formatted_details description) ]
       else [ Write description ])
  end.

(** ['No' if property_data['has_celebrity'] == '0' else 'Yes'] *)
Definition celebrity_involved (x : pyval) : string :=
  if eq_str x "0" then "No" else "Yes".

(** *** The overview buttons *)

(** The rows of a table with their index labels, as [iterrows] yields
    them: the table read from the store has the labels 0, 1, 2, ... *)
Definition iterrows (df : list Transaction) : list (nat * Transaction) :=
  combine (seq 0 (length df)) df.

(** [df[mask]] on rows that carry their label. *)
Definition select_labelled (mask : Transaction -> bool)
    (rows : list (nat * Transaction)) : list (nat * Transaction) :=
  List.filter (fun row => mask (snd row)) rows.

(** The "Apply filters" block, keeping the labels of the rows. *)
Definition apply_filters_labelled (df : list Transaction)
    (district_filter type_filter date_filter : list string)
    (price_range : Z * Z) : list (nat * Transaction) :=
  let filtered_df := iterrows df in
  let filtered_df :=
    if nonempty district_filter
    then select_labelled (district_mask district_filter) filtered_df
    else filtered_df in
  let filtered_df :=
    if nonempty type_filter
    then select_labelled (type_mask type_filter) filtered_df else filtered_df in
  let filtered_df :=
    if nonempty date_filter
    then select_labelled (date_mask date_filter) filtered_df else filtered_df in
  select_labelled (price_mask price_range) filtered_df.

(** [str(x)] for a cell that holds a string or nothing. *)
Definition cell_str (x : option string) : string :=
  match x with Some s => s | None => "None" end.

Record button : Type := mkButton {
  btn_column : nat;
  btn_label : string;
  btn_key : string;
  btn_index : nat
}.

(** The loop that lays the buttons out in four columns. *)
Definition buttons (filtered_df : list (nat * Transaction)) : list button :=
  List.map
    (fun '(i, (idx, row)) =>
       mkButton (i mod 4)
         (cell_str (property_district row) +:+ " - "
          +:+ format_fixed true 0 (transaction_sum row) +:+ " NOK")
         ("btn_" +:+ decimal idx)
         idx)
    (combine (seq 0 (length filtered_df)) filtered_df).

(** [df.iloc[selected_property]] *)
Definition iloc (df : list Transaction) (selected_property : nat)
    : option Transaction :=
  df !! selected_property.

End Page.

(** ** The data a run of [main] works on *)

Module Session.
Import Py DataProcessor Engine Feedback.

(** The table kept in [st.session_state['df']]: an uploaded table or a
    table read from the store. *)
Inductive table_value : Type :=
| Uploaded (df : DataFrame)
| Queried (rows : list Transaction).

(** The entries of [st.session_state] the program uses; [None] stands for
    a missing entry and for the value [None]. *)
Record session_state : Type := mkSession {
  current_tab : option string;
  selected_property : option nat;
  last_clicked_index : option nat;
  df : option table_value;
  current_table : option string
}.

(** "Initialize session state". *)
Definition initialize (s : session_state) : session_state :=
  mkSession (Some (default "Overview" (current_tab s)))
            (selected_property s) (last_clicked_index s) (df s)
            (current_table s).

(** The results [st.cache_data] keeps for
    [load_and_process_bigquery_data], by the full name of the table. *)
Abbreviation data_cache := (gmap string (list Transaction)).

(** [load_and_process_bigquery_data(table_name)] under [st.cache_data]:
    a call with arguments seen before returns the kept result; [None]
    when the query raises. *)
Definition cached_load (cache : data_cache) (st : store) (table_name : string)
    : option (list Transaction * data_cache) :=
  match cache !! full_table_name table_name with
  | Some rows => Some (rows, cache)
  | None =>
      match load_and_process_bigquery_data st table_name with
      | Some rows => Some (rows, <[full_table_name table_name := rows]> cache)
      | None => None
      end
  end.

Section WithLiteralReader.

Variable literal_eval : pyval -> option pyval.

(** The part of [main] from the file uploader to "Load data based on
    selected table": the session afterwards, the cache and what the
    sidebar shows; [None] when the query raises. *)
Definition load_data (cache : data_cache) (st : store) (s : session_state)
    (table_option : string) (uploaded_file : option DataFrame)
    : option (session_state * data_cache * list st_message) :=
  let s := initialize s in
  let '(s, shown) :=
    match uploaded_file with
    | Some file =>
        let '(table, shown) := process_upload literal_eval file in
        (mkSession (current_tab s) (selected_property s) (last_clicked_index s)
                   (Some (Uploaded table)) (current_table s), shown)
    | None => (s, [])
    end in
  let table_name := table_name_of table_option in
  match df s with
  | Some table =>
      if bool_decide (current_table s = Some table_name)
      then Some (s, cache, shown)
      else
        match cached_load cache st table_name with
        | Some (rows, cache') =>
            Some (mkSession (current_tab s) (selected_property s)
                    (last_clicked_index s) (Some (Queried rows))
                    (Some table_name), cache', shown)
        | None => None
        end
  | None =>
      match cached_load cache st table_name with
      | Some (rows, cache') =>
          Some (mkSession (current_tab s) (selected_property s)
                  (last_clicked_index s) (Some (Queried rows))
                  (Some table_name), cache', shown)
      | None => None
      end
  end.

End WithLiteralReader.

End Session.

(** ** Notions the further properties refer to *)

Module Further.
Import Py DataProcessor Engine Feedback.

(** The columns the upload steps write. *)
Definition written_column (c : string) : bool :=
  existsb (String.eqb c)
    ("property_data" :: "description" :: "newsworthy_alert"
     :: extracted_field_names).


(** The characters [str.isspace] accepts, each by its UTF-8 bytes: the
    ASCII characters 9 to 13 and 28 to 32, U+0085, U+00A0, U+1680, U+2000
    to U+200A, U+2028, U+2029, U+202F, U+205F and U+3000. *)
Definition bytes (codes : list nat) : string :=
  string_of_list_ascii (List.map ascii_of_nat codes).

Definition white_space : list string :=
  List.map bytes
    [ [9]; [10]; [11]; [12]; [13]; [28]; [29]; [30]; [31]; [32];
      [194; 133]; [194; 160]; [225; 154; 128];
      [226; 128; 128]; [226; 128; 129]; [226; 128; 130]; [226; 128; 131];
      [226; 128; 132]; [226; 128; 133]; [226; 128; 134]; [226; 128; 135];
      [226; 128; 136]; [226; 128; 137]; [226; 128; 138];
      [226; 128; 168]; [226; 128; 169]; [226; 128; 175];
      [226; 129; 159]; [227; 128; 128] ]%nat.

Fixpoint begins_with (w s : string) : bool :=
  match w, s with
  | EmptyString, _ => true
  | String a w', String b s' => Ascii.eqb a b && begins_with w' s'
  | String _ _, EmptyString => false
  end.

Fixpoint ends_with (w s : string) : bool :=
  String.eqb s w
  || match s with
     | String _ r => ends_with w r
     | EmptyString => false
     end.

(** No white space character at the start, none at the end. *)
Definition trimmed (s : string) : bool :=
  forallb (fun w => negb (begins_with w s) && negb (ends_with w s)) white_space.

(** One white space character, as the bytes [lstrip] removes in one
    step. *)
Definition space_char (w : string) : bool :=
  match w with
  | String a EmptyString => isspace a
  | String a (String b EmptyString) => negb (isspace a) && isspace2 a b
  | String a (String b (String c EmptyString)) =>
      negb (isspace a) && negb (isspace2 a b) && isspace3 a b c
  | _ => false
  end.

(** A text wrapped in white space beyond ASCII: a no-break space before,
    a thin space and a line separator after. *)
Definition wrapped_text : string :=
  bytes [194; 160; 32; 65; 32; 66; 226; 128; 137; 226; 128; 168; 10]%nat.

(** Numbers next to [None] or to a [float]: the lists pandas stores as a
    float64 column. *)
Definition number_or_none (v : pyval) : bool :=
  match v with
  | PyNone | PyInt _ | PyFloat _ | PyNaN => true
  | _ => false
  end.

Definition is_float (v : pyval) : bool :=
  match v with PyFloat _ | PyNaN => true | _ => false end.

Definition is_int (v : pyval) : bool :=
  match v with PyInt _ => true | _ => false end.

Definition is_none (v : pyval) : bool :=
  match v with PyNone => true | _ => false end.

Definition mixed_numbers (values : list pyval) : bool :=
  forallb number_or_none values
  && (existsb is_float values || (existsb is_int values && existsb is_none values)).

Definition is_str (v : pyval) : bool :=
  match v with PyStr _ => true | _ => false end.

(** Text next to [None]: the lists for which the cell of a [None] depends
    on whether pandas gives the column its string dtype. *)
Definition text_with_none (values : list pyval) : bool :=
  existsb is_str values && existsb is_none values.

(** Every integer is below 2^53 in size, so that it is a float64 as it
    is. *)
Definition small_int (v : pyval) : bool :=
  match v with
  | PyInt z => (Z.abs z <? 2 ^ 53)%Z
  | _ => true
  end.

(** The value as a cell of a float64 column. *)
Definition as_float (v : pyval) : pyval :=
  match v with
  | PyInt z => PyFloat (inject_Z z)
  | PyNone => PyNaN
  | other => other
  end.

(** An upload of two rows, the second without a sum. *)
Definition two_row_upload : DataFrame :=
  <["0" := [PyStr "{'transaction_id': 'T1', 'transaction_sum': 5000000}";
            PyStr "{'transaction_id': 'T2'}"]]> ∅.


(** A table whose celebrity flags are "0" and "1". *)
Definition flags_table : DataFrame :=
  <["has_celebrity" := [PyStr "0"; PyStr "1"]]> ∅.

(** A sum that is a whole number. *)
Definition whole (q : Q) : bool := Qeq_bool q (inject_Z (py_int q)).

Definition sum_ok (p : Q -> bool) (r : Transaction) : bool :=
  match transaction_sum r with
  | Some q => p q
  | None => true
  end.

Definition has_sum (r : Transaction) : bool :=
  match transaction_sum r with Some _ => true | None => false end.

(** Sums of which the largest is not a whole number. *)
Definition fractional_rows : list Transaction :=
  [ Examples.row "A" (Some "Frogner") (Some 1000000%Q) None None;
    Examples.row "B" (Some "Frogner") (Some (5000001 # 2)%Q) None None ].

Definition has_district (r : Transaction) : bool :=
  match property_district r with Some _ => true | None => false end.

(** Two rows agree on every column but [is_newsworthy] and [feedback]. *)
Definition same_but_feedback (r r' : Transaction) : Prop :=
  newsworthy_alert r' = newsworthy_alert r /\
  transaction_id r' = transaction_id r /\
  property_description r' = property_description r /\
  property_details r' = property_details r /\
  created_date r' = created_date r /\
  document_number r' = document_number r /\
  transaction_sum r' = transaction_sum r /\
  property_district r' = property_district r /\
  property_building_type_category r' = property_building_type_category r /\
  price_per_sqm r' = price_per_sqm r /\
  property_area r' = property_area r /\
  transaction_type r' = transaction_type r /\
  property_number_of_rooms r' = property_number_of_rooms r /\
  building_footprint r' = building_footprint r /\
  built_year r' = built_year r /\
  has_celebrity r' = has_celebrity r.

Definition success_message : st_message :=
  StSuccess "✅ Feedback submitted successfully!".

(** The session of a first run, and the session after the table
    [newsworthy] of the example store has been loaded. *)
Definition fresh_session : Session.session_state :=
  Session.mkSession None None None None None.

Definition loaded_session : Session.session_state :=
  Session.mkSession (Some "Overview") None None
    (Some (Session.Queried
             [Examples.stored "T1" "old"; Examples.stored "T9" "kept"]))
    (Some "newsworthy").

Definition loaded_cache : Session.data_cache :=
  <[full_table_name "newsworthy" :=
      [Examples.stored "T1" "old"; Examples.stored "T9" "kept"]]> ∅.

Definition not_char (c d : ascii) : bool := negb (Ascii.eqb d c).

(** A description with two supplementary attributes. *)
Definition detailed_description : string :=
  "Flat in Oslo. Additional details about the property: rooms:3 view:sea:north".

(** [s] without its commas. *)
Fixpoint without_commas (s : string) : string :=
  match s with
  | String c r =>
      if Ascii.eqb c "," then without_commas r else String c (without_commas r)
  | EmptyString => EmptyString
  end.

End Further.

(* ===================================================================== *)
(** * Part II: properties *)
(* ===================================================================== *)

Import Py DataProcessor Engine IsoDate Feedback Examples Contract.

(** ** The upload normalizer *)

Section Normalizer.

Variable literal_eval : pyval -> option pyval.

(** A column whose cells all convert is converted cell by cell. *)
Lemma apply_literal_eval_ok (cells parsed : list pyval) :
  apply_literal_eval literal_eval cells = inr parsed ->
  forall i source, cells !! i = Some source ->
    exists v, literal_eval source = Some v /\ parsed !! i = Some v.
Proof.
  revert parsed. induction cells as [|c cells IH]; intros parsed H i source Hi.
  - destruct i; discriminate.
  - simpl in H. destruct (literal_eval c) as [v|] eqn:Hc; [|discriminate].
    destruct (apply_literal_eval literal_eval cells) as [e|vs] eqn:Hrest;
      [discriminate|].
    injection H as <-. destruct i as [|i]; simpl in Hi.
    + injection Hi as <-. exists v. split; [exact Hc | reflexivity].
    + exact (IH vs eq_refl i source Hi).
Qed.

(** When some cell does not convert, the call leaves with the exception of
    the first such cell. *)
Lemma apply_literal_eval_fails (cells : list pyval) (i : nat) (source : pyval) :
  cells !! i = Some source -> literal_eval source = None ->
  exists j bad, (j <= i)%nat /\ cells !! j = Some bad /\ literal_eval bad = None /\
    apply_literal_eval literal_eval cells = inl (LiteralError bad).
Proof.
  revert i. induction cells as [|c cells IH]; intros i Hi Hnone.
  - destruct i; discriminate.
  - simpl. destruct (literal_eval c) as [v|] eqn:Hc.
    + destruct i as [|i]; simpl in Hi.
      * injection Hi as ->. congruence.
      * destruct (IH i Hi Hnone) as (j & bad & Hj & Hlook & Hbad & ->).
        exists (S j), bad. repeat split; [lia | exact Hlook | exact Hbad].
    + exists 0%nat, c. repeat split; [lia | exact Hc].
Qed.

(** A failed conversion returns the table as it was, with one report. *)
Lemma process_json_column_fails (df : DataFrame) (cells : list pyval)
    (i : nat) (source : pyval) :
  df !! "0" = Some cells -> cells !! i = Some source ->
  literal_eval source = None ->
  exists j bad, (j <= i)%nat /\ cells !! j = Some bad /\ literal_eval bad = None /\
    process_json_column literal_eval df "0"
    = (df, [StError "Error processing JSON data: " (LiteralError bad)]).
Proof.
  intros Hcol Hi Hnone.
  destruct (apply_literal_eval_fails cells i source Hi Hnone)
    as (j & bad & Hj & Hlook & Hbad & Happly).
  exists j, bad. repeat split; try assumption.
  unfold process_json_column. rewrite Hcol, Happly. reflexivity.
Qed.

(** The extraction loop on rows that are all dicts. *)
Lemma extract_rows_dicts (rows : list pyval)
    (extracted_fields : list (string * list pyval)) :
  Forall is_dict rows ->
  extract_rows rows extracted_fields
  = inr (List.map (fun '(field, values) =>
                     (field, (values ++ List.map (field_of field) rows)%list))
                  extracted_fields).
Proof.
  intros Hrows. revert extracted_fields.
  induction Hrows as [|data rows [entries ->] _ IH]; intros extracted_fields.
  - cbn [extract_rows List.map]. f_equal. rewrite <- (List.map_id extracted_fields) at 1.
    apply List.map_ext. intros [field values]. now rewrite app_nil_r.
  - cbn [extract_rows]. rewrite IH, List.map_map. f_equal.
    apply List.map_ext. intros [field values].
    now rewrite <- app_assoc.
Qed.

Lemma assign_columns_other (df : DataFrame)
    (extracted_fields : list (string * list pyval)) (c : string) :
  ~ In c (List.map fst extracted_fields) ->
  assign_columns df extracted_fields !! c = df !! c.
Proof.
  unfold assign_columns. revert df.
  induction extracted_fields as [|[field values] rest IH]; intros df Hc;
    [reflexivity|].
  cbn [fold_left]. rewrite IH by (intros H; apply Hc; now right).
  apply lookup_insert_ne. intros ->. apply Hc. now left.
Qed.

Lemma assign_columns_field (df : DataFrame)
    (extracted_fields : list (string * list pyval))
    (field : string) (values : list pyval) :
  List.NoDup (List.map fst extracted_fields) ->
  In (field, values) extracted_fields ->
  assign_columns df extracted_fields !! field = Some (coerce_column values).
Proof.
  revert df.
  induction extracted_fields as [|[f vs] rest IH]; intros df Hnd Hin;
    [destruct Hin|].
  cbn [List.map fst] in Hnd. apply List.NoDup_cons_iff in Hnd as [Hf Hnd].
  destruct Hin as [[= -> ->]|Hin].
  - change (assign_columns df ((field, values) :: rest))
      with (assign_columns (<[field := coerce_column values]> df) rest).
    rewrite assign_columns_other by exact Hf. apply lookup_insert_eq.
  - change (assign_columns df ((f, vs) :: rest))
      with (assign_columns (<[f := coerce_column vs]> df) rest).
    now apply IH.
Qed.

(** When every mapping converts to a dict, each extracted column is the
    column stored for the values the rows' dicts give for the field. *)
Lemma process_json_column_extracts (df : DataFrame) (cells parsed : list pyval) :
  df !! "0" = Some cells ->
  apply_literal_eval literal_eval cells = inr parsed ->
  Forall is_dict parsed ->
  snd (process_json_column literal_eval df "0") = [] /\
  forall field, In field extracted_field_names ->
    fst (process_json_column literal_eval df "0") !! field
    = Some (coerce_column (List.map (field_of field) parsed)).
Proof.
  intros Hcol Happly Hdicts. unfold process_json_column.
  rewrite Hcol, Happly, extract_rows_dicts by exact Hdicts.
  split; [reflexivity|]. intros field Hfield. cbn [fst].
  apply assign_columns_field.
  - rewrite List.map_map. cbn. repeat constructor; cbn; intuition discriminate.
  - apply in_map_iff. exists (field, []). split; [reflexivity|].
    apply in_map_iff. now exists field.
Qed.

(** C1, as the code has it.  When the mapping of some row does not
    convert, [process_json_column] returns the table unchanged and reports
    one error for the table, carrying the exception of the first cell that
    fails; no extracted column is created for any row.  The upload still
    gives every row its trimmed description and alert. *)
Theorem parse_failure_aborts_extraction (df : DataFrame) (cells : list pyval)
    (i : nat) (source : pyval) :
  df !! "0" = Some cells -> cells !! i = Some source ->
  literal_eval source = None ->
  (exists j bad, (j <= i)%nat /\ cells !! j = Some bad /\ literal_eval bad = None /\
     process_json_column literal_eval df "0"
     = (df, [StError "Error processing JSON data: " (LiteralError bad)])) /\
  (forall field, In field extracted_field_names ->
     fst (process_upload literal_eval df) !! field = df !! field) /\
  (forall texts, df !! "1" = Some texts ->
     fst (process_upload literal_eval df) !! "description"
     = Some (List.map strip_or_empty texts)) /\
  (forall alerts, df !! "2" = Some alerts ->
     fst (process_upload literal_eval df) !! "newsworthy_alert"
     = Some (List.map strip_or_empty alerts)).
Proof.
  intros Hcol Hi Hnone.
  destruct (process_json_column_fails df cells i source Hcol Hi Hnone)
    as (j & bad & Hj & Hlook & Hbad & Hproc).
  split; [exists j, bad; auto|].
  unfold process_upload. rewrite Hproc. cbn [fst].
  split; [|split].
  - intros field Hfield. unfold process_alert, clean_description.
    assert (Hd : "description" <> field /\ "newsworthy_alert" <> field).
    { cbn in Hfield. intuition (subst; discriminate). }
    destruct Hd as [Hd Ha].
    destruct (df !! "1") as [texts|] eqn:H1.
    + rewrite lookup_insert_ne by discriminate.
      destruct (df !! "2") as [alerts|] eqn:H2.
      * rewrite lookup_insert_ne by exact Ha.
        apply lookup_insert_ne. exact Hd.
      * apply lookup_insert_ne. exact Hd.
    + destruct (df !! "2") as [alerts|] eqn:H2; [|reflexivity].
      apply lookup_insert_ne. exact Ha.
  - intros texts H1. unfold process_alert, clean_description. rewrite H1.
    rewrite lookup_insert_ne by discriminate.
    destruct (df !! "2") as [alerts|] eqn:H2.
    + rewrite lookup_insert_ne by discriminate. apply lookup_insert_eq.
    + apply lookup_insert_eq.
  - intros alerts H2. unfold process_alert, clean_description.
    destruct (df !! "1") as [texts|] eqn:H1.
    + rewrite lookup_insert_ne by discriminate. rewrite H2.
      apply lookup_insert_eq.
    + rewrite H2. apply lookup_insert_eq.
Qed.

End Normalizer.

(** The theorem above at the upload of two rows whose second mapping is cut
    short. *)
Lemma parse_failure_aborts_extraction_witness :
  (exists j bad, (j <= 1)%nat /\ [good_mapping; bad_mapping] !! j = Some bad /\
     Literal.literal_eval bad = None /\
     process_json_column Literal.literal_eval broken_upload "0"
     = (broken_upload, [StError "Error processing JSON data: " (LiteralError bad)])) /\
  (forall field, In field extracted_field_names ->
     fst (process_upload Literal.literal_eval broken_upload) !! field
     = broken_upload !! field) /\
  (forall texts, broken_upload !! "1" = Some texts ->
     fst (process_upload Literal.literal_eval broken_upload) !! "description"
     = Some (List.map strip_or_empty texts)) /\
  (forall alerts, broken_upload !! "2" = Some alerts ->
     fst (process_upload Literal.literal_eval broken_upload) !! "newsworthy_alert"
     = Some (List.map strip_or_empty alerts)).
Proof.
  apply (parse_failure_aborts_extraction Literal.literal_eval broken_upload
           [good_mapping; bad_mapping] 1 bad_mapping).
  - vm_compute. reflexivity.
  - reflexivity.
  - vm_compute. reflexivity.
Defined.

(** C1, as the specification states it, fails on the upload of two rows:
    the first mapping converts to a dict holding [transaction_id], yet the
    table has no [transaction_id] cell for that row. *)
Lemma parse_failure_not_isolated :
  ~ parse_failures_isolated Literal.literal_eval broken_upload.
Proof.
  intros H. specialize (H 0%nat good_mapping eq_refl).
  vm_compute in H. specialize (H "transaction_id" (or_introl eq_refl)).
  discriminate H.
Qed.

(** C3 on the code.  The upload of the example row yields
    [transaction_id] "T1", [transaction_sum] the integer 5000000,
    [property_district] "Frogner" and the trimmed alert; the trimmed
    description is stored in the column [description], and the table has
    no column [property_description]. *)
Theorem example_upload_normalized :
  let out := fst (process_upload Literal.literal_eval example_upload) in
  cell out "transaction_id" 0 = Some (PyStr "T1") /\
  cell out "transaction_sum" 0 = Some (PyInt 5000000) /\
  cell out "property_district" 0 = Some (PyStr "Frogner") /\
  cell out "newsworthy_alert" 0 = Some (PyStr "Celebrity sale") /\
  cell out "description" 0 = Some (PyStr "A nice flat") /\
  out !! "property_description" = None /\
  snd (process_upload Literal.literal_eval example_upload)
  = [StSuccess "✅ File uploaded and processed successfully!"].
Proof. vm_compute. repeat split; reflexivity. Qed.

(** ** The celebrity flag *)

(** The string "0" becomes "No". *)
Lemma has_celebrity_value_zero_string :
  has_celebrity_value (PyStr "0") = PyStr "No".
Proof. reflexivity. Qed.

(** Every value other than the string "0" is returned as it is. *)
Lemma has_celebrity_value_other (x : pyval) :
  x <> PyStr "0" -> has_celebrity_value x = x.
Proof.
  intros Hx. unfold has_celebrity_value.
  destruct x as [ | | | | |s| | ]; try reflexivity.
  cbn [eq_str]. destruct (String.eqb_spec s "0") as [->|Hne];
    [contradiction | reflexivity].
Qed.

(** C6 on the code.  A numeric zero, integer or float, is not the string
    "0": the step returns it unchanged where the claim expects "No".  On
    the upload whose mapping holds [has_celebrity: 0] the cell stays the
    integer 0. *)
Theorem has_celebrity_numeric_zero_unchanged :
  has_celebrity_value (PyInt 0) = PyInt 0 /\
  has_celebrity_value (PyFloat 0) = PyFloat 0 /\
  has_celebrity_value (PyInt 0) <> PyStr "No" /\
  cell (normalize_has_celebrity
          (fst (process_upload Literal.literal_eval numeric_flag_upload)))
       "has_celebrity" 0 = Some (PyInt 0).
Proof.
  repeat split; try reflexivity.
  - discriminate.
Qed.

(** ** The filter engine *)

Lemma filter_twice {A : Type} (p q : A -> bool) (l : list A) :
  List.filter q (List.filter p l) = List.filter (fun x => p x && q x) l.
Proof.
  induction l as [|x l IH]; [reflexivity|].
  simpl. destruct (p x); simpl; [destruct (q x)|]; now rewrite IH.
Qed.

Lemma filter_all {A : Type} (l : list A) :
  List.filter (fun _ => true) l = l.
Proof. induction l as [|x l IH]; [reflexivity|]. simpl. now rewrite IH. Qed.

Lemma filter_sublist {A : Type} (p : A -> bool) (l : list A) :
  sublist (List.filter p l) l.
Proof.
  induction l as [|x l IH]; [constructor|].
  simpl. destruct (p x); [apply sublist_skip | apply sublist_cons]; exact IH.
Qed.

(** A filter step guarded by [if selection:] is a filter by the guarded
    mask. *)
Lemma guarded_select (selection : list string)
    (mask : list string -> Transaction -> bool) (df : list Transaction) :
  (if nonempty selection then select (mask selection) df else df)
  = List.filter (fun r => negb (nonempty selection) || mask selection r) df.
Proof.
  destruct selection; simpl.
  - symmetry. apply filter_all.
  - reflexivity.
Qed.

Lemma apply_filters_passes (df : list Transaction)
    (district_filter type_filter date_filter : list string)
    (price_range : Z * Z) :
  apply_filters df district_filter type_filter date_filter price_range
  = List.filter (passes district_filter type_filter date_filter price_range) df.
Proof.
  unfold apply_filters.
  rewrite (guarded_select district_filter district_mask).
  rewrite (guarded_select type_filter type_mask).
  rewrite (guarded_select date_filter date_mask).
  unfold select. rewrite !filter_twice.
  apply filter_ext. intros r. unfold passes, district_mask, type_mask, date_mask.
  now rewrite !andb_assoc.
Qed.

Lemma isin_In (s : string) (values : list string) :
  isin (Some s) values = true <-> In s values.
Proof.
  unfold isin. rewrite existsb_exists. split.
  - intros (v & Hv & Heq). apply String.eqb_eq in Heq. now subst.
  - intros H. exists s. split; [exact H | apply String.eqb_refl].
Qed.

Lemma isin_cell (x : option string) (values : list string) :
  isin x values = true <-> exists s, x = Some s /\ In s values.
Proof.
  destruct x as [s|].
  - rewrite isin_In. split; [eauto|]. now intros (t & [= ->] & H).
  - simpl. split; [discriminate|]. now intros (t & [=] & _).
Qed.

Lemma guarded_true (selection : list string) (b : bool) :
  negb (nonempty selection) || b = true <-> selection = [] \/ b = true.
Proof.
  destruct selection; simpl; split; auto.
  intros [H|H]; [discriminate | exact H].
Qed.

Lemma price_mask_true (price_range : Z * Z) (r : Transaction) :
  price_mask price_range r = true <->
  exists q, transaction_sum r = Some q /\
    (inject_Z (fst price_range) <= q)%Q /\ (q <= inject_Z (snd price_range))%Q.
Proof.
  unfold price_mask, ge_cell, le_cell.
  destruct (transaction_sum r) as [q|].
  - rewrite andb_true_iff, !Qle_bool_iff. split.
    + intros [H1 H2]. exists q. auto.
    + intros (q' & [= <-] & H1 & H2). auto.
  - simpl. split; [discriminate|]. now intros (q & [=] & _).
Qed.

(** Membership in the result of the filter. *)
Lemma apply_filters_In (df : list Transaction)
    (district_filter type_filter date_filter : list string)
    (price_range : Z * Z) (r : Transaction) :
  In r (apply_filters df district_filter type_filter date_filter price_range) <->
    In r df /\
    (district_filter = [] \/
     exists d, property_district r = Some d /\ In d district_filter) /\
    (type_filter = [] \/
     exists t, property_building_type_category r = Some t /\ In t type_filter) /\
    (date_filter = [] \/ In (astype_str (created_date r)) date_filter) /\
    (exists q, transaction_sum r = Some q /\
       (inject_Z (fst price_range) <= q)%Q /\ (q <= inject_Z (snd price_range))%Q).
Proof.
  rewrite apply_filters_passes, filter_In. unfold passes.
  rewrite !andb_true_iff, !guarded_true, !isin_cell, price_mask_true.
  split.
  - intros (Hin & ((Hd & Ht) & Hdate) & Hprice).
    repeat split; try assumption.
    destruct Hdate as [H|(s & [= <-] & H)]; auto.
  - intros (Hin & Hd & Ht & Hdate & Hprice).
    repeat split; try assumption.
    destruct Hdate as [H|H]; eauto.
Qed.

(** C7.  The filter returns the rows that satisfy the conjunction of the
    four dimension predicates, in their original order: it is the filter
    of the table by [passes]; it is a subsequence of the table; and a row
    is returned exactly when it is in the table, each selection is empty or
    contains the row's value, and the row's sum lies between the two bounds,
    bounds included. *)
Theorem apply_filters_conjunction (df : list Transaction)
    (district_filter type_filter date_filter : list string)
    (price_range : Z * Z) :
  let filtered_df :=
    apply_filters df district_filter type_filter date_filter price_range in
  filtered_df
  = List.filter (passes district_filter type_filter date_filter price_range) df /\
  sublist filtered_df df /\
  forall r, In r filtered_df <->
    In r df /\
    (district_filter = [] \/
     exists d, property_district r = Some d /\ In d district_filter) /\
    (type_filter = [] \/
     exists t, property_building_type_category r = Some t /\ In t type_filter) /\
    (date_filter = [] \/ In (astype_str (created_date r)) date_filter) /\
    (exists q, transaction_sum r = Some q /\
       (inject_Z (fst price_range) <= q)%Q /\ (q <= inject_Z (snd price_range))%Q).
Proof.
  cbv zeta. split; [apply apply_filters_passes|].
  split; [rewrite apply_filters_passes; apply filter_sublist|].
  apply apply_filters_In.
Qed.

(** The example of the specification: of the sums 1000000, 2500000 and
    9000000, the range [2000000, 9000000] keeps the last two. *)
Example apply_filters_range_example :
  apply_filters priced_rows [] [] [] (2000000, 9000000)%Z
  = [ row "C" (Some "Sentrum") (Some 2500000%Q) None None;
      row "D" (Some "Sentrum") (Some 9000000%Q) None None ].
Proof. reflexivity. Qed.

(** C5, as the code has it.  A row whose [transaction_sum] is null is
    never returned, whatever the selections and the price range. *)
Theorem null_sum_always_excluded (df : list Transaction)
    (district_filter type_filter date_filter : list string)
    (price_range : Z * Z) (r : Transaction) :
  transaction_sum r = None ->
  ~ In r (apply_filters df district_filter type_filter date_filter price_range).
Proof.
  intros Hnull Hin.
  apply apply_filters_In in Hin.
  destruct Hin as (_ & _ & _ & _ & q & Hq & _). congruence.
Qed.

(** The theorem above on the table of four rows, under its default range. *)
Lemma null_sum_always_excluded_witness :
  ~ In (row "B" (Some "Frogner") None None None)
       (apply_filters priced_rows [] [] [] (1000000, 9000000)%Z).
Proof.
  apply (null_sum_always_excluded priced_rows [] [] [] (1000000, 9000000)%Z
           (row "B" (Some "Frogner") None None None)).
  reflexivity.
Defined.

(** C5, as the specification states it, fails: the default range of the
    table of four rows is [1000000, 9000000], and the row without a sum is
    not returned under it. *)
Lemma null_sum_not_kept_by_full_range :
  ~ null_sum_kept_by_full_range priced_rows.
Proof.
  intros H.
  specialize (H (1000000, 9000000)%Z (row "B" (Some "Frogner") None None None)).
  assert (Hin : In (row "B" (Some "Frogner") None None None) priced_rows)
    by (right; left; reflexivity).
  specialize (H eq_refl Hin eq_refl).
  vm_compute in H.
  repeat (destruct H as [H|H]; [discriminate H|]). exact H.
Qed.

(** ** Dates and their texts *)


Lemma append_cons (c : ascii) (a b : string) :
  String c a +:+ b = String c (a +:+ b).
Proof. reflexivity. Qed.




Lemma append_assoc (a b c : string) : (a +:+ b) +:+ c = a +:+ (b +:+ c).
Proof.
  induction a as [|x a IH]; [reflexivity|]. now rewrite !append_cons, IH.
Qed.


Lemma append_empty_r (s : string) : s +:+ "" = s.
Proof. induction s as [|c s IH]; [reflexivity|]. now rewrite append_cons, IH. Qed.









(** ** District statistics *)

Lemma round_half_even_comp (q q' : Q) :
  q == q' -> round_half_even q = round_half_even q'.
Proof.
  intros H. unfold round_half_even.
  rewrite (Qfloor_comp q q' H).
  assert (Hc : ((q - inject_Z (Qfloor q')) ?= 1 # 2)%Q
               = ((q' - inject_Z (Qfloor q')) ?= 1 # 2)%Q)
    by (apply Qcompare_comp; [rewrite H|]; reflexivity).
  now rewrite Hc.
Qed.

(** The group of a district holds the rows of the district, in their
    order. *)
Lemma fold_group_step_lookup (df : list Transaction)
    (groups : gmap string (list Transaction)) (d : string) :
  fold_left group_step df groups !! d
  = match in_district d df with
    | [] => groups !! d
    | rs => Some (default [] (groups !! d) ++ rs)%list
    end.
Proof.
  revert groups. induction df as [|r df IH]; intros groups; [reflexivity|].
  cbn [fold_left]. rewrite IH. unfold in_district. cbn [List.filter].
  unfold group_step.
  destruct (property_district r) as [d'|] eqn:Hd.
  - destruct (decide (d' = d)) as [->|Hne].
    + rewrite bool_decide_eq_true_2 by reflexivity.
      rewrite lookup_insert_eq. cbn [from_option id].
      destruct (List.filter _ df) as [|r' rs].
      * reflexivity.
      * now rewrite <- app_assoc.
    + rewrite bool_decide_eq_false_2 by congruence.
      now rewrite lookup_insert_ne by exact Hne.
  - rewrite bool_decide_eq_false_2 by discriminate. reflexivity.
Qed.

Lemma groupby_district_lookup (df : list Transaction) (d : string) :
  groupby_district df !! d
  = match in_district d df with
    | [] => None
    | rs => Some rs
    end.
Proof.
  unfold groupby_district. rewrite fold_group_step_lookup.
  rewrite lookup_empty. reflexivity.
Qed.

(** The order of the district keys. *)
Lemma ascii_compare_N (a b : ascii) :
  Ascii.compare a b = (N_of_ascii a ?= N_of_ascii b)%N.
Proof. reflexivity. Qed.

Lemma string_leb_trans (a b c : string) :
  String.leb a b = true -> String.leb b c = true -> String.leb a c = true.
Proof.
  unfold String.leb. revert b c.
  induction a as [|x a IH]; intros [|y b] [|z c]; cbn [String.compare];
    try reflexivity; try discriminate.
  rewrite !ascii_compare_N.
  destruct (N.compare_spec (N_of_ascii x) (N_of_ascii y)) as [Hxy|Hxy|Hxy];
    destruct (N.compare_spec (N_of_ascii y) (N_of_ascii z)) as [Hyz|Hyz|Hyz];
    try discriminate; intros Hab Hbc.
  - rewrite Hxy, Hyz, N.compare_refl. exact (IH b c Hab Hbc).
  - rewrite Hxy. now apply N.compare_lt_iff in Hyz as ->.
  - rewrite <- Hyz. now apply N.compare_lt_iff in Hxy as ->.
  - assert (H : (N_of_ascii x < N_of_ascii z)%N) by lia.
    now apply N.compare_lt_iff in H as ->.
Qed.

#[local] Instance key_le_trans : Transitive key_le.
Proof. intros a b c. unfold key_le. apply string_leb_trans. Qed.

#[local] Instance key_le_total : Total key_le.
Proof. intros a b. unfold key_le. apply String.leb_total. Qed.

Lemma sorted_groups_In (df : list Transaction) (d : string)
    (rows : list Transaction) :
  In (d, rows) (merge_sort key_le (map_to_list (groupby_district df)))
  <-> groupby_district df !! d = Some rows.
Proof.
  rewrite <- list_elem_of_In, merge_sort_Permutation.
  apply elem_of_map_to_list.
Qed.

Lemma in_district_nonempty (d : string) (df : list Transaction) :
  in_district d df <> [] <-> exists r, In r df /\ property_district r = Some d.
Proof.
  unfold in_district. split.
  - intros Hne. destruct (List.filter _ df) as [|r rs] eqn:Hf; [congruence|].
    assert (Hin : In r (List.filter
      (fun r => bool_decide (property_district r = Some d)) df))
      by (rewrite Hf; now left).
    apply filter_In in Hin as [Hin Hd]. apply bool_decide_eq_true in Hd. eauto.
  - intros (r & Hin & Hd) Hnil.
    assert (Hr : In r (List.filter
      (fun r => bool_decide (property_district r = Some d)) df)).
    { apply filter_In. split; [exact Hin|]. now apply bool_decide_eq_true. }
    rewrite Hnil in Hr. exact Hr.
Qed.

Section Statistics.

Variable mean : list Q -> option Q.
Variable mean_int : list Z -> option Q.
Variable round2 : Q -> Q.

Lemma district_stats_keys (df : list Transaction) :
  List.map fst (district_stats mean mean_int round2 df)
  = List.map fst (merge_sort key_le (map_to_list (groupby_district df))).
Proof.
  unfold district_stats. rewrite List.map_map. apply List.map_ext.
  now intros [d g].
Qed.

(** The rows of the statistics: one for each district that has rows,
    aggregated from those rows. *)
Lemma district_stats_In (df : list Transaction) (d : string) (row : district_row) :
  In (d, row) (district_stats mean mean_int round2 df) <->
  in_district d df <> [] /\
  row = aggregate mean mean_int round2 (in_district d df).
Proof.
  unfold district_stats. rewrite in_map_iff. split.
  - intros ([d' g] & [= -> <-] & Hin).
    apply sorted_groups_In in Hin. rewrite groupby_district_lookup in Hin.
    destruct (in_district d df) as [|r rs] eqn:Hrs; [discriminate|].
    injection Hin as <-. split; [discriminate | reflexivity].
  - intros [Hne ->].
    exists (d, in_district d df). split; [reflexivity|].
    apply sorted_groups_In. rewrite groupby_district_lookup.
    now destruct (in_district d df).
Qed.

End Statistics.

(** ** The feedback update *)

(** The tokens of the statement up to the opening quote of the feedback
    literal do not depend on the key or on the explanation. *)
Lemma sql_tokens_update_query (tid label : string) (explanation : option string) :
  sql_tokens (update_query tid label explanation)
  = ([ TWord "UPDATE"; TQuotedId newsworthy_table; TWord "SET";
       TWord "is_newsworthy"; TSymbol "=";
       TWord (bool_str (String.eqb label "Newsworthy")); TSymbol ",";
       TWord "feedback"; TSymbol "=" ]
     ++ after_open_quote
          (escaped_explanation explanation +:+ "'" +:+ newline +:+
           "    WHERE transaction_id = '" +:+ tid +:+ "'" +:+ newline +:+ "    "))%list.
Proof.
  unfold update_query, sql_tokens.
  destruct (String.eqb label "Newsworthy"); reflexivity.
Qed.

(** Case analysis on the steps of a reader that succeeded. *)
Ltac open_steps H :=
  repeat match type of H with
  | (?step ≫= _) = Some _ =>
      let v := fresh "v" in
      destruct step as [v|];
      [ cbn [mbind option_bind] in H; try destruct v as [? ?]
      | discriminate H ]
  end.

Lemma read_assignments_table (table : string) (toks : list sql_token)
    (u : update_statement) :
  read_assignments table toks = Some u -> upd_table u = table.
Proof.
  unfold read_assignments. intros H. open_steps H.
  match type of H with
  | match ?rest with [] => _ | _ :: _ => _ end = _ =>
      destruct rest; [|discriminate H]
  end.
  now injection H as <-.
Qed.

(** Whatever the statement built by the program is read as, it names the
    table [newsworthy]. *)
Lemma read_update_query_table (tid label : string) (explanation : option string)
    (u : update_statement) :
  read_update (sql_tokens (update_query tid label explanation)) = Some u ->
  upd_table u = newsworthy_table.
Proof.
  rewrite sql_tokens_update_query. unfold read_update.
  cbn [app expect_word upper String.eqb take_quoted_id mbind option_bind].
  apply read_assignments_table.
Qed.

(** The tokens of a plain text inside a single-quoted literal. *)
Lemma lex_plain_string (acc s rest : string) :
  plain s ->
  lex (LString "'" acc) (s +:+ "'" +:+ rest) = TString (acc +:+ s) :: lex LDefault rest.
Proof.
  unfold plain. revert acc. induction s as [|c s IH]; intros acc Hs.
  - now rewrite append_empty_r.
  - cbn [Literal.all_chars] in Hs. apply andb_true_iff in Hs as [Hc Hs].
    unfold plain_char in Hc. apply negb_true_iff in Hc.
    repeat (apply orb_false_iff in Hc as [Hc ?]).
    rewrite append_cons. cbn [lex].
    replace (Ascii.eqb c "\") with false by congruence.
    replace (Ascii.eqb c "'") with false by congruence.
    replace (Ascii.eqb c "010") with false by congruence.
    replace (Ascii.eqb c "013") with false by congruence.
    cbn [orb]. rewrite IH by exact Hs. unfold snoc.
    now rewrite append_assoc.
Qed.

Lemma after_open_quote_plain (s rest : string) :
  plain s -> starts_with "'" rest = false ->
  after_open_quote (s +:+ "'" +:+ rest) = TString s :: lex LDefault rest.
Proof.
  intros Hs Hrest. unfold after_open_quote, lex_start.
  cbn [is_sql_blank Ascii.eqb orb Bool.eqb andb].
  replace (starts_with2 "'" (s +:+ "'" +:+ rest)) with false.
  - cbn [app]. now rewrite lex_plain_string.
  - symmetry. destruct s as [|c s].
    + cbn. exact Hrest.
    + unfold plain in Hs. cbn [Literal.all_chars] in Hs.
      apply andb_true_iff in Hs as [Hc _].
      unfold plain_char in Hc. apply negb_true_iff in Hc.
      repeat (apply orb_false_iff in Hc as [Hc ?]).
      rewrite append_cons. cbn [starts_with2].
      rewrite Ascii.eqb_sym in Hc. now rewrite Hc.
Qed.

Lemma double_quotes_plain (s : string) : plain s -> double_quotes s = s.
Proof.
  unfold plain. induction s as [|c s IH]; intros Hs; [reflexivity|].
  cbn [Literal.all_chars] in Hs. apply andb_true_iff in Hs as [Hc Hs].
  unfold plain_char in Hc. apply negb_true_iff in Hc.
  repeat (apply orb_false_iff in Hc as [Hc ?]).
  cbn [double_quotes]. replace (Ascii.eqb c "'") with false by congruence.
  now rewrite IH.
Qed.

(** The tokens of a statement built from a plain key and a plain
    explanation. *)
Lemma sql_tokens_plain (tid label explanation : string) :
  plain tid -> plain explanation ->
  sql_tokens (update_query tid label (Some explanation))
  = [ TWord "UPDATE"; TQuotedId newsworthy_table; TWord "SET";
      TWord "is_newsworthy"; TSymbol "=";
      TWord (bool_str (String.eqb label "Newsworthy")); TSymbol ",";
      TWord "feedback"; TSymbol "="; TString explanation;
      TWord "WHERE"; TWord "transaction_id"; TSymbol "="; TString tid ].
Proof.
  intros Htid Hexp. rewrite sql_tokens_update_query.
  cbn [escaped_explanation]. rewrite double_quotes_plain by exact Hexp.
  rewrite after_open_quote_plain by (exact Hexp || reflexivity).
  change (lex LDefault (newline +:+ "    WHERE transaction_id = '" +:+
                        tid +:+ "'" +:+ newline +:+ "    "))
    with ([TWord "WHERE"; TWord "transaction_id"; TSymbol "="]
          ++ after_open_quote (tid +:+ "'" +:+ newline +:+ "    "))%list.
  rewrite after_open_quote_plain by (exact Htid || reflexivity).
  reflexivity.
Qed.

(** Such a statement is read as the update of that key with that
    explanation. *)
Lemma update_query_accepted (tid label explanation : string) :
  plain tid -> plain explanation ->
  read_update (sql_tokens (update_query tid label (Some explanation)))
  = Some (mkUpdate newsworthy_table (String.eqb label "Newsworthy")
            explanation tid).
Proof.
  intros Htid Hexp. rewrite sql_tokens_plain by assumption.
  destruct (String.eqb label "Newsworthy"); reflexivity.
Qed.

(** A plain explanation leaves the structure of the statement as it is. *)
Lemma plain_explanation_confined (tid label explanation : string) :
  plain tid -> plain explanation ->
  statement_shape (update_query tid label (Some explanation))
  = statement_shape (update_query tid label None).
Proof.
  intros Htid Hexp. unfold statement_shape.
  change (update_query tid label None) with (update_query tid label (Some "")).
  rewrite !sql_tokens_plain by (assumption || reflexivity). reflexivity.
Qed.

(** *** Running the statement *)

Lemma update_row_idem (u : update_statement) (r : Transaction) :
  update_row u (update_row u r) = update_row u r.
Proof.
  unfold update_row. destruct (transaction_id r) as [k|] eqn:Hk.
  - destruct (String.eqb k (upd_transaction_id u)) eqn:Heq.
    + cbn [set_feedback transaction_id]. rewrite Hk, Heq. reflexivity.
    + now rewrite Hk, Heq.
  - now rewrite Hk.
Qed.

(** A matching row receives the two values of the statement, whatever it
    held before. *)
Lemma update_row_overwrites (u : update_statement) (r : Transaction) :
  transaction_id r = Some (upd_transaction_id u) ->
  is_newsworthy (update_row u r) = Some (upd_is_newsworthy u) /\
  feedback (update_row u r) = Some (upd_feedback u).
Proof.
  intros Hk. unfold update_row. rewrite Hk, String.eqb_refl. now split.
Qed.

Section RunningTheStatement.

Variable run_other : store -> string -> store * option py_exception.

(** A text read as the update is carried out on the table it names. *)
Lemma run_query_accepted (st : store) (text : string) (u : update_statement) :
  read_update (sql_tokens text) = Some u ->
  run_query run_other st text
  = match st !! upd_table u with
    | Some rows => (<[upd_table u := List.map (update_row u) rows]> st, None)
    | None => (st, Some (QueryError text))
    end.
Proof. intros Hu. unfold run_query. now rewrite Hu. Qed.


Lemma run_query_accepted_idem (st : store) (text : string) (u : update_statement) :
  read_update (sql_tokens text) = Some u ->
  fst (run_query run_other (fst (run_query run_other st text)) text)
  = fst (run_query run_other st text).
Proof.
  intros Hu. rewrite !(run_query_accepted _ _ _ Hu).
  destruct (st !! upd_table u) as [rows|] eqn:Hrows; cbn [fst].
  - rewrite lookup_insert_eq. cbn [fst]. rewrite insert_insert_eq.
    f_equal. rewrite List.map_map. apply List.map_ext, update_row_idem.
  - now rewrite Hrows.
Qed.

Lemma update_feedback_store (st : store) (tid label : string)
    (explanation : option string) :
  fst (fst (update_feedback_in_bigquery run_other st tid label explanation))
  = fst (run_query run_other st (update_query tid label explanation)).
Proof.
  unfold update_feedback_in_bigquery.
  now destruct (run_query run_other st (update_query tid label explanation))
    as [st' [e|]].
Qed.

(** With a plain key and a plain explanation the update is carried out
    and stores the explanation as it was given. *)
Lemma update_feedback_plain (st : store) (tid label explanation : string)
    (rows : list Transaction) :
  plain tid -> plain explanation ->
  st !! newsworthy_table = Some rows ->
  update_feedback_in_bigquery run_other st tid label (Some explanation)
  = (<[newsworthy_table :=
         List.map (update_row (mkUpdate newsworthy_table
                                 (String.eqb label "Newsworthy") explanation tid))
                  rows]> st, [], None).
Proof.
  intros Htid Hexp Hrows. unfold update_feedback_in_bigquery.
  rewrite (run_query_accepted _ _ _ (update_query_accepted _ label _ Htid Hexp)).
  cbn [upd_table]. now rewrite Hrows.
Qed.

End RunningTheStatement.



(** C2 on the code.  With the explanation [injected_explanation], the
    feedback literal ends after the escaped quote and the rest of the
    explanation is read as SQL: the statement has a predicate of the
    explanation's own, [WHERE TRUE], a statement separator and a second
    statement that absorbs the predicate on the key.  The structure of the
    statement therefore depends on the explanation.  With the explanation
    of the specification's example the doubled quotes are read as the ends
    and starts of three literals, and the statement is not accepted as an
    update. *)
Theorem explanation_not_confined :
  sql_tokens (update_query "T1" "Newsworthy" (Some injected_explanation))
  = [ TWord "UPDATE"; TQuotedId newsworthy_table; TWord "SET";
      TWord "is_newsworthy"; TSymbol "="; TWord "True"; TSymbol ",";
      TWord "feedback"; TSymbol "="; TString "'";
      TWord "WHERE"; TWord "TRUE"; TSymbol ";";
      TWord "SELECT"; TWord "1"; TWord "FROM"; TSymbol "(";
      TWord "SELECT"; TWord "CAST"; TSymbol "("; TWord "NULL"; TWord "AS";
      TWord "STRING"; TSymbol ")"; TWord "AS"; TWord "transaction_id";
      TSymbol ")"; TWord "WHERE"; TWord "transaction_id"; TSymbol "=";
      TString "T1" ] /\
  ~ explanation_confined "T1" "Newsworthy" /\
  sql_tokens (update_query "T1" "Newsworthy" (Some "O'Brien's note"))
  = [ TWord "UPDATE"; TQuotedId newsworthy_table; TWord "SET";
      TWord "is_newsworthy"; TSymbol "="; TWord "True"; TSymbol ",";
      TWord "feedback"; TSymbol "=";
      TString "O"; TString "Brien"; TString "s note";
      TWord "WHERE"; TWord "transaction_id"; TSymbol "="; TString "T1" ] /\
  read_update (sql_tokens (update_query "T1" "Newsworthy" (Some "O'Brien's note")))
  = None.
Proof.
  split; [vm_compute; reflexivity|]. split; [|split; vm_compute; reflexivity].
  intros H. specialize (H (Some injected_explanation)).
  vm_compute in H. discriminate H.
Qed.

(* ===================================================================== *)
(** * Part III: further properties of the program *)
(* ===================================================================== *)

Import Page Session Further.

(** ** The upload steps *)

Section UploadSteps.

Variable literal_eval : pyval -> option pyval.

Lemma extract_rows_names (rows : list pyval)
    (extracted_fields extracted : list (string * list pyval)) :
  extract_rows rows extracted_fields = inr extracted ->
  List.map fst extracted = List.map fst extracted_fields.
Proof.
  revert extracted_fields.
  induction rows as [|data rows IH]; intros extracted_fields H.
  - now injection H as <-.
  - cbn [extract_rows] in H. destruct data; try discriminate H.
    rewrite (IH _ H), List.map_map. apply List.map_ext. now intros [field values].
Qed.

Lemma written_column_false (c : string) :
  written_column c = false ->
  c <> "property_data" /\ c <> "description" /\ c <> "newsworthy_alert" /\
  ~ In c extracted_field_names.
Proof.
  unfold written_column. intros H.
  assert (Hall : forall x, In x ("property_data" :: "description"
            :: "newsworthy_alert" :: extracted_field_names) -> x <> c).
  { intros x Hx ->. assert (Ht : existsb (String.eqb c)
      ("property_data" :: "description" :: "newsworthy_alert"
       :: extracted_field_names) = true).
    { apply existsb_exists. exists c. split; [exact Hx | apply String.eqb_refl]. }
    congruence. }
  repeat split.
  - intros ->. now apply (Hall "property_data"); [left|].
  - intros ->. now apply (Hall "description"); [right; left|].
  - intros ->. now apply (Hall "newsworthy_alert"); [right; right; left|].
  - intros Hin. now apply (Hall c); [do 3 right|].
Qed.

Lemma process_json_column_frame (df : DataFrame) (column_idx c : string) :
  c <> "property_data" -> ~ In c extracted_field_names ->
  fst (process_json_column literal_eval df column_idx) !! c = df !! c.
Proof.
  intros Hpd Hfields. unfold process_json_column.
  destruct (df !! column_idx) as [cells|]; [|reflexivity].
  destruct (apply_literal_eval literal_eval cells) as [e|parsed]; [reflexivity|].
  destruct (extract_rows parsed _) as [e|extracted] eqn:Hex; cbn [fst].
  - now apply lookup_insert_ne.
  - rewrite assign_columns_other.
    + now apply lookup_insert_ne.
    + rewrite (extract_rows_names _ _ _ Hex), List.map_map. cbn [fst].
      now rewrite List.map_id.
Qed.

Lemma clean_description_frame (df : DataFrame) (c : string) :
  c <> "description" -> clean_description df !! c = df !! c.
Proof.
  intros Hc. unfold clean_description.
  destruct (df !! "1"); [|reflexivity]. now apply lookup_insert_ne.
Qed.

Lemma process_alert_frame (df : DataFrame) (c : string) :
  c <> "newsworthy_alert" -> process_alert df !! c = df !! c.
Proof.
  intros Hc. unfold process_alert.
  destruct (df !! "2"); [|reflexivity]. now apply lookup_insert_ne.
Qed.

Lemma process_upload_table (df : DataFrame) :
  fst (process_upload literal_eval df)
  = process_alert (clean_description
      (fst (process_json_column literal_eval df "0"))).
Proof.
  unfold process_upload.
  now destruct (process_json_column literal_eval df "0").
Qed.

(** X1.  Whatever the upload contains and however the conversion ends,
    the upload steps leave every column they do not write as it was: only
    [property_data], the fourteen extracted fields, [description] and
    [newsworthy_alert] can differ from the file. *)
Theorem process_upload_keeps_other_columns (df : DataFrame) (c : string) :
  written_column c = false ->
  fst (process_upload literal_eval df) !! c = df !! c.
Proof.
  intros Hc. apply written_column_false in Hc as (Hpd & Hd & Ha & Hf).
  rewrite process_upload_table, process_alert_frame, clean_description_frame
    by assumption.
  now apply process_json_column_frame.
Qed.

Lemma apply_literal_eval_dicts (cells : list pyval)
    (dicts : list (list (pyval * pyval))) :
  Forall2 (fun source entries => literal_eval source = Some (PyDict entries))
    cells dicts ->
  apply_literal_eval literal_eval cells = inr (List.map PyDict dicts).
Proof.
  induction 1 as [|source entries cells dicts Hsrc _ IH]; [reflexivity|].
  cbn [apply_literal_eval List.map]. now rewrite Hsrc, IH.
Qed.

Lemma small_int_int64 (z : Z) : (Z.abs z <? 2 ^ 53)%Z = true -> int64 z = true.
Proof.
  intros H. apply Z.ltb_lt in H. unfold int64.
  apply andb_true_iff. split; [apply Z.leb_le | apply Z.ltb_lt]; lia.
Qed.

Lemma float_of_small_int (z : Z) :
  (Z.abs z <? 2 ^ 53)%Z = true -> float_of_int z = inject_Z z.
Proof.
  intros H. apply Z.ltb_lt in H. unfold float_of_int.
  replace (Z.log2 (Z.abs z) + 1 <=? 53)%Z with true; [reflexivity|].
  symmetry. apply Z.leb_le.
  destruct (Z.eq_dec (Z.abs z) 0%Z) as [->|Hz]; [cbn; lia|].
  assert (Z.log2 (Z.abs z) < 53)%Z by (apply Z.log2_lt_pow2; lia). lia.
Qed.

(** What the inference has seen after a list of small integers, floats,
    [None]s and other values. *)
Lemma fold_saw (values : list pyval) (s : seen) :
  forallb small_int values = true ->
  null_ (fold_left saw values s) = null_ s || existsb is_none values /\
  int_ (fold_left saw values s) = int_ s || existsb is_int values /\
  float_ (fold_left saw values s) = float_ s || existsb is_float values /\
  object_ (fold_left saw values s)
  = object_ s || negb (forallb number_or_none values).
Proof.
  revert s. induction values as [|v values IH]; intros s Hsmall.
  - cbn. now rewrite !orb_false_r.
  - cbn [forallb] in Hsmall. apply andb_true_iff in Hsmall as [Hv Hsmall].
    cbn [fold_left]. destruct (IH (saw s v) Hsmall) as (Hn & Hi & Hf & Ho).
    rewrite Hn, Hi, Hf, Ho. clear IH Hn Hi Hf Ho.
    destruct v; cbn [saw small_int] in *;
      try rewrite (small_int_int64 _ Hv);
      cbn [null_ int_ float_ object_ existsb forallb is_none is_int is_float
           number_or_none negb andb orb];
      rewrite ?orb_true_r, ?orb_false_r; repeat split; reflexivity.
Qed.

(** The column stored for a list whose integers are small: a float64
    column for numbers mixed with [None] or a [float], else the list. *)
Lemma coerce_column_small (values : list pyval) :
  forallb small_int values = true ->
  coerce_column values
  = if mixed_numbers values then List.map as_float values else values.
Proof.
  intros Hsmall. unfold coerce_column, mixed_numbers.
  destruct (fold_saw values (mkSeen false false false false) Hsmall)
    as (-> & -> & -> & ->).
  cbn [null_ int_ float_ object_ orb]. rewrite negb_involutive.
  destruct (forallb number_or_none values
            && (existsb is_float values
                || existsb is_int values && existsb is_none values));
    [|reflexivity].
  apply List.map_ext_in. intros v Hv.
  rewrite forallb_forall in Hsmall. specialize (Hsmall v Hv).
  destruct v; try reflexivity. cbn [to_float64 as_float small_int] in *.
  now rewrite float_of_small_int.
Qed.

(** X2.  When the mapping of every row converts to a dict, the upload
    reports no error and each of the fourteen extracted columns has one
    cell per row, holding the value the row's dict has for the field,
    [None] where the dict has no such key, as pandas stores the list of
    these values: when the values are numbers mixed with [None] or with a
    [float], each integer is stored as the float equal to it and each
    [None] as NaN; otherwise each value is stored as it is.  Integers are
    taken below 2^53 in size, and a column that holds text next to [None]
    is left out. *)
Theorem process_upload_extracts_fields (df : DataFrame) (cells : list pyval)
    (dicts : list (list (pyval * pyval))) :
  df !! "0" = Some cells ->
  Forall2 (fun source entries => literal_eval source = Some (PyDict entries))
    cells dicts ->
  snd (process_json_column literal_eval df "0") = [] /\
  forall field, In field extracted_field_names ->
    let values := List.map (fun entries => dict_get entries field) dicts in
    forallb small_int values = true ->
    text_with_none values = false ->
    exists column,
      fst (process_upload literal_eval df) !! field = Some column /\
      length column = length cells /\
      forall i v, values !! i = Some v ->
        column !! i = Some (if mixed_numbers values then as_float v else v).
Proof.
  intros Hcol Hdicts.
  pose proof (apply_literal_eval_dicts cells dicts Hdicts) as Happly.
  assert (Hall : Forall is_dict (List.map PyDict dicts)).
  { apply Forall_forall. intros x Hx. apply list_elem_of_In, in_map_iff in Hx as (e & <- & _).
    now exists e. }
  destruct (process_json_column_extracts literal_eval df cells _ Hcol Happly Hall)
    as [Hmsg Hfields].
  split; [exact Hmsg|]. intros field Hfield values Hsmall _.
  exists (if mixed_numbers values then List.map as_float values else values).
  assert (Hlen : length values = length cells).
  { unfold values. rewrite length_map. symmetry.
    exact (Forall2_length _ _ _ Hdicts). }
  split; [|split].
  - rewrite process_upload_table, process_alert_frame, clean_description_frame.
    + rewrite (Hfields field Hfield), List.map_map.
      change (List.map (fun x => field_of field (PyDict x)) dicts) with values.
      now rewrite coerce_column_small.
    + cbn in Hfield. intuition (subst; discriminate).
    + cbn in Hfield. intuition (subst; discriminate).
  - destruct (mixed_numbers values); [rewrite length_map|]; exact Hlen.
  - intros i v Hv. destruct (mixed_numbers values); [|exact Hv].
    change (List.map as_float values) with (as_float <$> values).
    now rewrite list_lookup_fmap, Hv.
Qed.



End UploadSteps.

(** The three theorems above on concrete uploads. *)
Lemma process_upload_keeps_other_columns_witness :
  written_column "0" = false /\
  fst (process_upload Literal.literal_eval broken_upload) !! "0"
  = broken_upload !! "0".
Proof.
  split; [reflexivity|].
  apply (process_upload_keeps_other_columns Literal.literal_eval broken_upload "0").
  reflexivity.
Defined.

Lemma process_upload_extracts_fields_witness :
  snd (process_json_column Literal.literal_eval two_row_upload "0") = [] /\
  fst (process_upload Literal.literal_eval two_row_upload) !! "transaction_sum"
  = Some [PyFloat 5000000; PyNaN] /\
  fst (process_upload Literal.literal_eval two_row_upload) !! "transaction_id"
  = Some [PyStr "T1"; PyStr "T2"].
Proof.
  destruct (process_upload_extracts_fields Literal.literal_eval two_row_upload
              [PyStr "{'transaction_id': 'T1', 'transaction_sum': 5000000}";
               PyStr "{'transaction_id': 'T2'}"]
              [[(PyStr "transaction_id", PyStr "T1");
                (PyStr "transaction_sum", PyInt 5000000)];
               [(PyStr "transaction_id", PyStr "T2")]])
    as [Hmsg Hfields].
  - reflexivity.
  - repeat constructor.
  - split; [exact Hmsg|]. split.
    + destruct (Hfields "transaction_sum") as (column & -> & Hlen & Hcells);
        [cbn; tauto | reflexivity | reflexivity |].
      pose proof (Hcells 0%nat _ eq_refl) as H0.
      pose proof (Hcells 1%nat _ eq_refl) as H1.
      destruct column as [|c0 [|c1 [|c2 column]]]; try discriminate Hlen.
      cbn in H0, H1. now injection H0 as ->; injection H1 as ->.
    + destruct (Hfields "transaction_id") as (column & -> & Hlen & Hcells);
        [cbn; tauto | reflexivity | reflexivity |].
      pose proof (Hcells 0%nat _ eq_refl) as H0.
      pose proof (Hcells 1%nat _ eq_refl) as H1.
      destruct column as [|c0 [|c1 [|c2 column]]]; try discriminate Hlen.
      cbn in H0, H1. now injection H0 as ->; injection H1 as ->.
Defined.


(** ** Trimmed text *)

Lemma append_length (a b : string) :
  String.length (a +:+ b) = (String.length a + String.length b)%nat.
Proof.
  induction a as [|c a IH]; [reflexivity|].
  rewrite append_cons. cbn [String.length]. now rewrite IH.
Qed.

Lemma lstrip_space_char (w v : string) :
  space_char w = true -> lstrip (w +:+ v) = lstrip v.
Proof.
  destruct w as [|a [|b [|c [|d w]]]]; cbn [space_char]; try discriminate.
  - intros Ha. rewrite append_cons. cbn [lstrip]. now rewrite Ha.
  - intros H. apply andb_true_iff in H as [Ha Hb]. apply negb_true_iff in Ha.
    rewrite !append_cons. cbn [lstrip]. now rewrite Ha, Hb.
  - intros H. apply andb_true_iff in H as [H Hc].
    apply andb_true_iff in H as [Ha Hb].
    apply negb_true_iff in Ha. apply negb_true_iff in Hb.
    rewrite !append_cons. cbn [lstrip]. now rewrite Ha, Hb, Hc.
Qed.

Lemma lstrip_cases (s : string) :
  lstrip s = s \/
  exists w r, space_char w = true /\ s = w +:+ r.
Proof.
  destruct s as [|a r]; [now left|].
  destruct (isspace a) eqn:Ha.
  { right. exists (String a ""), r. split; [exact Ha | reflexivity]. }
  destruct r as [|b r2]; [left; cbn [lstrip]; now rewrite Ha|].
  destruct (isspace2 a b) eqn:Hb.
  { right. exists (String a (String b "")), r2. split; [|reflexivity].
    cbn [space_char]. now rewrite Ha, Hb. }
  destruct r2 as [|c r3]; [left; cbn [lstrip]; now rewrite Ha, Hb|].
  destruct (isspace3 a b c) eqn:Hc.
  { right. exists (String a (String b (String c ""))), r3. split; [|reflexivity].
    cbn [space_char]. now rewrite Ha, Hb, Hc. }
  left. cbn [lstrip]. now rewrite Ha, Hb, Hc.
Qed.

Lemma space_char_length (w : string) :
  space_char w = true -> (0 < String.length w)%nat.
Proof. destruct w; [discriminate | cbn; lia]. Qed.

(** Induction along the steps of [lstrip]. *)
Lemma lstrip_ind (P : string -> Prop) :
  (forall s, lstrip s = s -> P s) ->
  (forall w r, space_char w = true -> P r -> P (w +:+ r)) ->
  forall s, P s.
Proof.
  intros Hstop Hstep s.
  remember (String.length s) as n eqn:Hn. revert s Hn.
  induction n as [n IH] using lt_wf_ind. intros s ->.
  destruct (lstrip_cases s) as [Hs|(w & r & Hw & ->)]; [now apply Hstop|].
  apply Hstep; [exact Hw|].
  apply (IH (String.length r)); [|reflexivity].
  rewrite append_length. pose proof (space_char_length w Hw). lia.
Qed.

Lemma lstrip_idem (s : string) : lstrip (lstrip s) = lstrip s.
Proof.
  induction s as [s Hs|w r Hw IH] using lstrip_ind.
  - now rewrite Hs.
  - now rewrite lstrip_space_char.
Qed.

Lemma lstrip_length (s : string) :
  (String.length (lstrip s) <= String.length s)%nat.
Proof.
  induction s as [s Hs|w r Hw IH] using lstrip_ind.
  - now rewrite Hs.
  - rewrite lstrip_space_char by exact Hw. rewrite append_length. lia.
Qed.

(** A text that is white space only stays so when white space follows. *)
Lemma lstrip_all_space (x v : string) :
  lstrip x = "" -> lstrip (x +:+ v) = lstrip v.
Proof.
  induction x as [x Hx|w r Hw IH] using lstrip_ind.
  - intros Hempty. rewrite Hx in Hempty. now subst x.
  - rewrite lstrip_space_char by exact Hw. intros Hr.
    rewrite append_assoc, lstrip_space_char by exact Hw. now apply IH.
Qed.

Lemma rstrip_cons (c : ascii) (r : string) :
  rstrip (String c r)
  = match lstrip (String c r) with
    | EmptyString => EmptyString
    | _ => String c (rstrip r)
    end.
Proof. reflexivity. Qed.

(** [rstrip] cuts off a tail of white space. *)
Lemma rstrip_tail (s : string) :
  exists v, s = rstrip s +:+ v /\ lstrip v = "".
Proof.
  induction s as [|c r IH]; [now exists ""|].
  rewrite rstrip_cons. destruct (lstrip (String c r)) eqn:Hs.
  - exists (String c r). split; [reflexivity | exact Hs].
  - destruct IH as (v & Hr & Hv). exists v. split; [|exact Hv].
    rewrite append_cons. now rewrite <- Hr.
Qed.

(** What [rstrip] keeps is followed, from every place in it, by
    something that is not white space. *)
Lemma rstrip_kept (s p u : string) :
  rstrip s = p +:+ u -> u <> "" ->
  exists v, lstrip v = "" /\ lstrip (u +:+ v) <> "".
Proof.
  revert p. induction s as [|c r IH]; intros p Hsplit Hu.
  - destruct p, u; try discriminate. contradiction.
  - rewrite rstrip_cons in Hsplit.
    destruct (lstrip (String c r)) eqn:Hs.
    + destruct p, u; try discriminate. contradiction.
    + destruct p as [|d p].
      * destruct (rstrip_tail r) as (v & Hr & Hv). exists v. split; [exact Hv|].
        change ("" +:+ u) with u in Hsplit. subst u.
        rewrite append_cons, <- Hr, Hs. discriminate.
      * rewrite append_cons in Hsplit. injection Hsplit as _ Hsplit.
        exact (IH p Hsplit Hu).
Qed.

Lemma rstrip_idem (s : string) : rstrip (rstrip s) = rstrip s.
Proof.
  induction s as [|c r IH]; [reflexivity|].
  rewrite rstrip_cons. destruct (lstrip (String c r)) eqn:Hs; [reflexivity|].
  rewrite rstrip_cons, IH.
  destruct (lstrip (String c (rstrip r))) eqn:Hkept; [|reflexivity].
  destruct (rstrip_tail r) as (v & Hr & Hv).
  pose proof (lstrip_all_space (String c (rstrip r)) v Hkept) as Hall.
  rewrite append_cons, <- Hr, Hs, Hv in Hall. discriminate.
Qed.

Lemma begins_with_split (w s : string) :
  begins_with w s = true -> exists r, s = w +:+ r.
Proof.
  revert s. induction w as [|a w IH]; intros s; [now exists s|].
  destruct s as [|b s]; [discriminate|]. cbn [begins_with].
  intros H. apply andb_true_iff in H as [Hab Hw].
  apply Ascii.eqb_eq in Hab as ->. destruct (IH s Hw) as (r & ->). now exists r.
Qed.

Lemma ends_with_split (w s : string) :
  ends_with w s = true -> exists p, s = p +:+ w.
Proof.
  induction s as [|c s IH].
  - cbn [ends_with]. rewrite orb_false_r. intros H.
    apply String.eqb_eq in H as <-. now exists "".
  - cbn [ends_with]. intros H. apply orb_true_iff in H as [H|H].
    + apply String.eqb_eq in H as <-. now exists "".
    + destruct (IH H) as (p & ->). now exists (String c p).
Qed.

Lemma white_space_chars : Forall (fun w => space_char w = true) white_space.
Proof. repeat constructor. Qed.

Lemma white_space_char (w : string) : In w white_space -> space_char w = true.
Proof. apply (proj1 (List.Forall_forall _ _) white_space_chars). Qed.

Lemma lstrip_not_started (s w : string) :
  space_char w = true -> begins_with w (lstrip s) = false.
Proof.
  intros Hw. destruct (begins_with w (lstrip s)) eqn:Hstart; [|reflexivity].
  apply begins_with_split in Hstart as (r & Hr).
  pose proof (lstrip_idem s) as Hidem. rewrite Hr in Hidem.
  rewrite lstrip_space_char in Hidem by exact Hw.
  pose proof (lstrip_length r) as Hlen. rewrite Hidem, append_length in Hlen.
  pose proof (space_char_length w Hw). lia.
Qed.

Lemma rstrip_not_ended (s w : string) :
  space_char w = true -> ends_with w (rstrip s) = false.
Proof.
  intros Hw. destruct (ends_with w (rstrip s)) eqn:Hend; [|reflexivity].
  apply ends_with_split in Hend as (p & Hp).
  destruct (rstrip_kept s p w Hp) as (v & Hv & Hkept).
  - intros ->. discriminate Hw.
  - rewrite lstrip_space_char in Hkept by exact Hw. contradiction.
Qed.

(** [rstrip] keeps a start of the text. *)
Lemma rstrip_started (s w : string) :
  begins_with w (rstrip s) = true -> begins_with w s = true.
Proof.
  destruct (rstrip_tail s) as (v & Hs & _). revert Hs.
  generalize (rstrip s). intros t -> . revert t.
  induction w as [|a w IH]; intros t; [reflexivity|].
  destruct t as [|b t]; [discriminate|]. rewrite append_cons. cbn [begins_with].
  intros H. apply andb_true_iff in H as [Hab Hw]. rewrite Hab. now apply IH.
Qed.

Lemma lstrip_fixed (s : string) :
  (forall w, space_char w = true -> begins_with w s = false) -> lstrip s = s.
Proof.
  intros Hnone. destruct (lstrip_cases s) as [Hs|(w & r & Hw & ->)]; [exact Hs|].
  specialize (Hnone w Hw).
  assert (Hstart : begins_with w (w +:+ r) = true).
  { clear. induction w as [|a w IH]; [reflexivity|].
    rewrite append_cons. cbn [begins_with]. now rewrite Ascii.eqb_refl. }
  congruence.
Qed.

Lemma strip_idem (s : string) : strip (strip s) = strip s.
Proof.
  unfold strip. rewrite (lstrip_fixed (rstrip (lstrip s))); [apply rstrip_idem|].
  intros w Hw. destruct (begins_with w (rstrip (lstrip s))) eqn:Hstart; [|reflexivity].
  apply rstrip_started in Hstart. now rewrite lstrip_not_started in Hstart.
Qed.

Lemma strip_trimmed (s : string) : trimmed (strip s) = true.
Proof.
  unfold trimmed. apply forallb_forall. intros w Hw.
  apply white_space_char in Hw. unfold strip.
  rewrite rstrip_not_ended by exact Hw.
  destruct (begins_with w (rstrip (lstrip s))) eqn:Hstart; [|reflexivity].
  apply rstrip_started in Hstart. now rewrite lstrip_not_started in Hstart.
Qed.

(** White space beyond ASCII is removed as well. *)
Lemma strip_wrapped_text : strip wrapped_text = "A B".
Proof. vm_compute. reflexivity. Qed.

(** X4.  After [clean_description] and [process_alert], the columns
    [description] and [newsworthy_alert] have one cell per row of the
    columns 1 and 2, and every cell is a string that neither starts nor
    ends with white space; cleaning such a cell again changes nothing. *)
Theorem cleaned_cells_are_trimmed (df : DataFrame) (texts alerts : list pyval) :
  df !! "1" = Some texts -> df !! "2" = Some alerts ->
  exists descriptions newsworthy,
    process_alert (clean_description df) !! "description" = Some descriptions /\
    process_alert (clean_description df) !! "newsworthy_alert" = Some newsworthy /\
    length descriptions = length texts /\ length newsworthy = length alerts /\
    forall x, In x descriptions \/ In x newsworthy ->
      exists s, x = PyStr s /\ trimmed s = true /\ strip_or_empty x = x.
Proof.
  intros H1 H2.
  exists (List.map strip_or_empty texts), (List.map strip_or_empty alerts).
  assert (Hclean : forall y, exists s, strip_or_empty y = PyStr s /\
            trimmed s = true /\ strip_or_empty (PyStr s) = PyStr s).
  { intros y. destruct y; try (exists ""; repeat split; reflexivity).
    exists (strip s). split; [reflexivity|]. split; [apply strip_trimmed|].
    cbn [strip_or_empty]. f_equal. apply strip_idem. }
  repeat split.
  - rewrite process_alert_frame by discriminate.
    unfold clean_description. rewrite H1. apply lookup_insert_eq.
  - unfold process_alert. rewrite clean_description_frame by discriminate.
    rewrite H2. apply lookup_insert_eq.
  - apply length_map.
  - apply length_map.
  - intros x [Hx|Hx]; apply in_map_iff in Hx as (y & <- & _);
      destruct (Hclean y) as (s & -> & Ht & Hs); eauto.
Qed.

Lemma cleaned_cells_are_trimmed_witness :
  exists descriptions newsworthy,
    process_alert (clean_description example_upload) !! "description"
    = Some descriptions /\
    process_alert (clean_description example_upload) !! "newsworthy_alert"
    = Some newsworthy /\
    length descriptions = length [PyStr " A nice flat "] /\
    length newsworthy = length [PyStr " Celebrity sale "] /\
    forall x, In x descriptions \/ In x newsworthy ->
      exists s, x = PyStr s /\ trimmed s = true /\ strip_or_empty x = x.
Proof.
  apply (cleaned_cells_are_trimmed example_upload); reflexivity.
Defined.

(** ** The celebrity flag on the pages *)

Lemma has_celebrity_value_idem (x : pyval) :
  has_celebrity_value (has_celebrity_value x) = has_celebrity_value x.
Proof.
  unfold has_celebrity_value. destruct (eq_str x "0") eqn:Hx; [reflexivity|].
  now rewrite Hx.
Qed.

(** X5.  The [has_celebrity] step, which every run of the page applies to
    the table kept in the session, is idempotent: applying it to a table
    it has already been applied to changes nothing. *)
Theorem normalize_has_celebrity_idempotent (df : DataFrame) :
  normalize_has_celebrity (normalize_has_celebrity df)
  = normalize_has_celebrity df.
Proof.
  unfold normalize_has_celebrity.
  destruct (df !! "has_celebrity") as [cells|] eqn:Hcol.
  - rewrite lookup_insert_eq, insert_insert_eq, List.map_map. f_equal.
    apply List.map_ext, has_celebrity_value_idem.
  - now rewrite Hcol.
Qed.

(** X6.  After the [has_celebrity] step no cell of the column is the
    string "0", so the line "Celebrity Involved" of the detail view, which
    tests for "0", reads "Yes" for every row, also for a row whose flag was
    "0" and is now "No". *)
Theorem celebrity_involved_always_yes (df : DataFrame) (i : nat) (x : pyval) :
  cell (normalize_has_celebrity df) "has_celebrity" i = Some x ->
  x <> PyStr "0" /\ celebrity_involved x = "Yes".
Proof.
  unfold cell, normalize_has_celebrity.
  destruct (df !! "has_celebrity") as [cells|] eqn:Hcol.
  - rewrite lookup_insert_eq. intros Hx.
    apply list_lookup_fmap_Some in Hx as (y & -> & _).
    unfold celebrity_involved, has_celebrity_value.
    destruct (eq_str y "0") eqn:Hy.
    + split; [discriminate | reflexivity].
    + rewrite Hy. split; [|reflexivity]. intros ->. discriminate Hy.
  - rewrite Hcol. discriminate.
Qed.

Lemma celebrity_involved_always_yes_witness :
  cell flags_table "has_celebrity" 0 = Some (PyStr "0") /\
  PyStr "No" <> PyStr "0" /\ celebrity_involved (PyStr "No") = "Yes".
Proof.
  split; [reflexivity|].
  apply (celebrity_involved_always_yes flags_table 0 (PyStr "No")).
  reflexivity.
Defined.

(** ** Filters in sequence and the default price range *)

Lemma passes_split (district_filter type_filter date_filter : list string)
    (price_range : Z * Z) (r : Transaction) :
  passes district_filter type_filter date_filter price_range r
  = passes district_filter [] [] price_range r
    && passes [] type_filter [] price_range r
    && passes [] [] date_filter price_range r.
Proof.
  unfold passes. cbn [nonempty negb orb andb].
  destruct (price_mask price_range r); [|now rewrite !andb_false_r].
  now rewrite !andb_true_r.
Qed.

(** X7.  Filtering in two passes is filtering once by both sets of
    criteria: the result is the rows of the table that pass both, so the
    order of the passes does not matter, passing the same criteria twice
    changes nothing, and filtering by district, then by type, then by date
    under one price range is the single filter with the three selections. *)
Theorem apply_filters_in_sequence (df : list Transaction)
    (d1 t1 c1 d2 t2 c2 : list string) (r1 r2 : Z * Z) :
  apply_filters (apply_filters df d1 t1 c1 r1) d2 t2 c2 r2
  = List.filter (fun r => passes d1 t1 c1 r1 r && passes d2 t2 c2 r2 r) df /\
  apply_filters (apply_filters df d1 t1 c1 r1) d2 t2 c2 r2
  = apply_filters (apply_filters df d2 t2 c2 r2) d1 t1 c1 r1 /\
  apply_filters (apply_filters df d1 t1 c1 r1) d1 t1 c1 r1
  = apply_filters df d1 t1 c1 r1 /\
  apply_filters (apply_filters (apply_filters df d1 [] [] r1) [] t1 [] r1)
    [] [] c1 r1
  = apply_filters df d1 t1 c1 r1.
Proof.
  rewrite !apply_filters_passes, !filter_twice.
  repeat split.
  - apply filter_ext. intros r. apply andb_comm.
  - apply filter_ext. intros r. apply andb_diag.
  - apply filter_ext. intros r. rewrite andb_assoc. symmetry. apply passes_split.
Qed.

(** The smallest and the largest present cell. *)
Lemma Qmin_opt_Some (acc x : option Q) (m : Q) :
  Qmin_opt acc x = Some m ->
  (acc = Some m \/ x = Some m) /\
  (forall a, acc = Some a -> (m <= a)%Q) /\
  (forall q, x = Some q -> (m <= q)%Q).
Proof.
  destruct acc as [a|], x as [q|]; cbn [Qmin_opt]; intros [= <-].
  - destruct (Qle_bool a q) eqn:Hle.
    + apply Qle_bool_iff in Hle. repeat split; [now left | |].
      * intros ? [= <-]. apply Qle_refl.
      * now intros ? [= <-].
    + assert (Hlt : (q < a)%Q).
      { apply Qnot_le_lt. intros Hc. apply Qle_bool_iff in Hc. congruence. }
      repeat split; [now right | |].
      * intros ? [= <-]. now apply Qlt_le_weak.
      * intros ? [= <-]. apply Qle_refl.
  - repeat split; [now left | | discriminate]. intros ? [= <-]. apply Qle_refl.
  - repeat split; [now right | discriminate |]. intros ? [= <-]. apply Qle_refl.
Qed.

Lemma Qmax_opt_Some (acc x : option Q) (m : Q) :
  Qmax_opt acc x = Some m ->
  (acc = Some m \/ x = Some m) /\
  (forall a, acc = Some a -> (a <= m)%Q) /\
  (forall q, x = Some q -> (q <= m)%Q).
Proof.
  destruct acc as [a|], x as [q|]; cbn [Qmax_opt]; intros [= <-].
  - destruct (Qle_bool q a) eqn:Hle.
    + apply Qle_bool_iff in Hle. repeat split; [now left | |].
      * intros ? [= <-]. apply Qle_refl.
      * now intros ? [= <-].
    + assert (Hlt : (a < q)%Q).
      { apply Qnot_le_lt. intros Hc. apply Qle_bool_iff in Hc. congruence. }
      repeat split; [now right | |].
      * intros ? [= <-]. now apply Qlt_le_weak.
      * intros ? [= <-]. apply Qle_refl.
  - repeat split; [now left | | discriminate]. intros ? [= <-]. apply Qle_refl.
  - repeat split; [now right | discriminate |]. intros ? [= <-]. apply Qle_refl.
Qed.

Lemma fold_Qmin (cells : list (option Q)) (acc : option Q) (m : Q) :
  fold_left Qmin_opt cells acc = Some m ->
  (acc = Some m \/ In (Some m) cells) /\
  (forall a, acc = Some a -> (m <= a)%Q) /\
  (forall q, In (Some q) cells -> (m <= q)%Q).
Proof.
  revert acc. induction cells as [|x cells IH]; intros acc H.
  - cbn in H. subst acc. repeat split; [now left | | intros q []].
    intros a [= <-]. apply Qle_refl.
  - cbn [fold_left] in H. destruct (IH _ H) as (Hm & Hacc & Hall).
    destruct (Qmin_opt acc x) as [a'|] eqn:Hstep.
    + destruct (Qmin_opt_Some _ _ _ Hstep) as (Hs1 & Hs2 & Hs3).
      pose proof (Hacc a' eq_refl) as Hma. repeat split.
      * destruct Hm as [[= <-]|Hm]; [|right; now right].
        destruct Hs1 as [Hs1|Hs1]; [now left | right; now left].
      * intros a Ha. apply Qle_trans with a'; [exact Hma | now apply Hs2].
      * intros q [Hq|Hq]; [|now apply Hall].
        apply Qle_trans with a'; [exact Hma | now apply Hs3].
    + destruct acc, x; try discriminate Hstep. repeat split.
      * destruct Hm as [Hm|Hm]; [discriminate | right; now right].
      * discriminate.
      * intros q [Hq|Hq]; [discriminate | now apply Hall].
Qed.

Lemma fold_Qmax (cells : list (option Q)) (acc : option Q) (m : Q) :
  fold_left Qmax_opt cells acc = Some m ->
  (acc = Some m \/ In (Some m) cells) /\
  (forall a, acc = Some a -> (a <= m)%Q) /\
  (forall q, In (Some q) cells -> (q <= m)%Q).
Proof.
  revert acc. induction cells as [|x cells IH]; intros acc H.
  - cbn in H. subst acc. repeat split; [now left | | intros q []].
    intros a [= <-]. apply Qle_refl.
  - cbn [fold_left] in H. destruct (IH _ H) as (Hm & Hacc & Hall).
    destruct (Qmax_opt acc x) as [a'|] eqn:Hstep.
    + destruct (Qmax_opt_Some _ _ _ Hstep) as (Hs1 & Hs2 & Hs3).
      pose proof (Hacc a' eq_refl) as Hma. repeat split.
      * destruct Hm as [[= <-]|Hm]; [|right; now right].
        destruct Hs1 as [Hs1|Hs1]; [now left | right; now left].
      * intros a Ha. apply Qle_trans with a'; [now apply Hs2 | exact Hma].
      * intros q [Hq|Hq]; [|now apply Hall].
        apply Qle_trans with a'; [now apply Hs3 | exact Hma].
    + destruct acc, x; try discriminate Hstep. repeat split.
      * destruct Hm as [Hm|Hm]; [discriminate | right; now right].
      * discriminate.
      * intros q [Hq|Hq]; [discriminate | now apply Hall].
Qed.

Lemma fold_Qmin_None (cells : list (option Q)) (acc : option Q) :
  fold_left Qmin_opt cells acc = None <->
  acc = None /\ forall x, In x cells -> x = None.
Proof.
  revert acc. induction cells as [|x cells IH]; intros acc; cbn [fold_left].
  - split; [intros ->; split; [reflexivity | intros x []] | now intros [-> _]].
  - rewrite IH. split.
    + intros [Hstep Hall]. destruct acc, x; try discriminate Hstep.
      split; [reflexivity|]. intros y [<-|Hy]; [reflexivity | now apply Hall].
    + intros [-> Hall]. rewrite (Hall x (or_introl eq_refl)). split; [reflexivity|].
      intros y Hy. apply Hall. now right.
Qed.

Lemma fold_Qmax_None (cells : list (option Q)) (acc : option Q) :
  fold_left Qmax_opt cells acc = None <->
  acc = None /\ forall x, In x cells -> x = None.
Proof.
  revert acc. induction cells as [|x cells IH]; intros acc; cbn [fold_left].
  - split; [intros ->; split; [reflexivity | intros x []] | now intros [-> _]].
  - rewrite IH. split.
    + intros [Hstep Hall]. destruct acc, x; try discriminate Hstep.
      split; [reflexivity|]. intros y [<-|Hy]; [reflexivity | now apply Hall].
    + intros [-> Hall]. rewrite (Hall x (or_introl eq_refl)). split; [reflexivity|].
      intros y Hy. apply Hall. now right.
Qed.

Lemma default_price_range_Some (df : list Transaction) (price_range : Z * Z) :
  default_price_range df = Some price_range ->
  exists lo hi, price_range = (py_int lo, py_int hi) /\
    In (Some lo) (List.map transaction_sum df) /\
    In (Some hi) (List.map transaction_sum df) /\
    forall q, In (Some q) (List.map transaction_sum df) -> (lo <= q <= hi)%Q.
Proof.
  unfold default_price_range, series_min, series_max.
  destruct (fold_left Qmin_opt _ None) as [lo|] eqn:Hlo; [|discriminate].
  destruct (fold_left Qmax_opt _ None) as [hi|] eqn:Hhi; [|discriminate].
  intros [= <-]. exists lo, hi.
  destruct (fold_Qmin _ _ _ Hlo) as ([Hl|Hl] & _ & Hmin); [discriminate|].
  destruct (fold_Qmax _ _ _ Hhi) as ([Hh|Hh] & _ & Hmax); [discriminate|].
  repeat split; auto.
Qed.

Lemma py_int_inject (q : Q) (z : Z) : q == inject_Z z -> py_int q = z.
Proof.
  unfold Qeq, py_int. cbn [Qnum Qden inject_Z]. intros H.
  rewrite Z.mul_1_r in H. rewrite H. now apply Z.quot_mul.
Qed.

Lemma py_int_below (q : Q) : (0 <= q)%Q -> (inject_Z (py_int q) <= q)%Q.
Proof.
  intros Hq. assert (Hn : (0 <= Qnum q)%Z).
  { unfold Qle in Hq. cbn in Hq. lia. }
  replace (py_int q) with (Qfloor q); [apply Qfloor_le|].
  unfold py_int, Qfloor. destruct q as [n d]. cbn [Qnum Qden] in *.
  symmetry. apply Z.quot_div_nonneg; lia.
Qed.

Lemma sum_in_table (df : list Transaction) (q : Q) :
  In (Some q) (List.map transaction_sum df) ->
  exists r, In r df /\ transaction_sum r = Some q.
Proof. intros H. apply in_map_iff in H as (r & Hr & Hin). eauto. Qed.

Lemma sum_ok_forall (p : Q -> bool) (df : list Transaction) (r : Transaction)
    (q : Q) :
  forallb (sum_ok p) df = true -> In r df -> transaction_sum r = Some q ->
  p q = true.
Proof.
  intros Hall Hin Hq. rewrite forallb_forall in Hall.
  specialize (Hall r Hin). unfold sum_ok in Hall. now rewrite Hq in Hall.
Qed.

(** X8.  When every sum of the table is a whole number, the default
    range of the price slider keeps every row that has a sum: with no
    selection, the filter returns the rows with a sum, in their order. *)
Theorem default_range_keeps_whole_sums (df : list Transaction)
    (price_range : Z * Z) :
  forallb (sum_ok whole) df = true ->
  default_price_range df = Some price_range ->
  apply_filters df [] [] [] price_range = List.filter has_sum df.
Proof.
  intros Hwhole Hdefault.
  destruct (default_price_range_Some df price_range Hdefault)
    as (lo & hi & -> & Hlo & Hhi & Hbounds).
  rewrite apply_filters_passes. apply filter_ext_in. intros r Hin.
  unfold passes, has_sum, price_mask, ge_cell, le_cell.
  cbn [nonempty negb orb andb fst snd].
  destruct (transaction_sum r) as [q|] eqn:Hq; [|reflexivity].
  assert (Hbound : forall m, In (Some m) (List.map transaction_sum df) ->
            inject_Z (py_int m) == m).
  { intros m Hm. apply sum_in_table in Hm as (r' & Hr' & Hm).
    symmetry. apply Qeq_bool_iff.
    exact (sum_ok_forall whole df r' m Hwhole Hr' Hm). }
  assert (Hq' : In (Some q) (List.map transaction_sum df)).
  { apply in_map_iff. now exists r. }
  destruct (Hbounds q Hq') as [Hl Hh].
  apply andb_true_iff. split; apply Qle_bool_iff.
  - now rewrite (Hbound lo Hlo).
  - now rewrite (Hbound hi Hhi).
Qed.

Lemma default_range_keeps_whole_sums_witness :
  apply_filters priced_rows [] [] [] (1000000, 9000000)%Z
  = List.filter has_sum priced_rows.
Proof.
  apply (default_range_keeps_whole_sums priced_rows (1000000, 9000000)%Z);
    reflexivity.
Defined.

(** X9.  The range of the price slider cannot be computed, because [int]
    is applied to NaN, exactly when no row of the table has a sum; an empty
    table is such a table. *)
Theorem default_price_range_undefined (df : list Transaction) :
  default_price_range df = None <->
  forall r, In r df -> transaction_sum r = None.
Proof.
  unfold default_price_range, series_min, series_max. split.
  - intros H r Hin.
    destruct (fold_left Qmin_opt _ None) as [lo|] eqn:Hlo.
    + destruct (fold_left Qmax_opt _ None) as [hi|] eqn:Hhi; [discriminate|].
      apply fold_Qmax_None in Hhi as [_ Hall]. apply Hall.
      apply in_map_iff. now exists r.
    + apply fold_Qmin_None in Hlo as [_ Hall]. apply Hall.
      apply in_map_iff. now exists r.
  - intros Hall.
    assert (Hmin : fold_left Qmin_opt (List.map transaction_sum df) None = None).
    { apply fold_Qmin_None. split; [reflexivity|].
      intros x Hx. apply in_map_iff in Hx as (r & <- & Hr). now apply Hall. }
    now rewrite Hmin.
Qed.

(** X10.  The bounds of the default range are truncated to integers.  So
    when the largest sum of the table is positive and not a whole number,
    the row that holds it is not returned under the default range,
    whatever the selections. *)
Theorem default_range_drops_fractional_maximum (df : list Transaction)
    (district_filter type_filter date_filter : list string)
    (price_range : Z * Z) (r : Transaction) (q : Q) :
  default_price_range df = Some price_range ->
  In r df -> transaction_sum r = Some q ->
  forallb (sum_ok (fun q' => Qle_bool q' q)) df = true ->
  Qle_bool 0 q = true -> whole q = false ->
  ~ In r (apply_filters df district_filter type_filter date_filter price_range).
Proof.
  intros Hdefault Hin Hq Hmax Hpos Hfrac Hkept.
  destruct (default_price_range_Some df price_range Hdefault)
    as (lo & hi & -> & _ & Hhi & Hbounds).
  apply apply_filters_In in Hkept as (_ & _ & _ & _ & q' & Hq' & _ & Hle).
  rewrite Hq in Hq'. injection Hq' as <-. cbn [snd] in Hle.
  apply Qle_bool_iff in Hpos.
  assert (Hqhi : q == hi).
  { apply Qle_antisym.
    - apply Hbounds, in_map_iff. now exists r.
    - apply sum_in_table in Hhi as (r' & Hr' & Hs).
      apply Qle_bool_iff. exact (sum_ok_forall _ df r' hi Hmax Hr' Hs). }
  assert (Hint : q == inject_Z (py_int hi)).
  { apply Qle_antisym; [exact Hle|]. rewrite Hqhi. apply py_int_below.
    now rewrite <- Hqhi. }
  unfold whole in Hfrac. rewrite (py_int_inject q _ Hint) in Hfrac.
  apply Qeq_bool_iff in Hint. congruence.
Qed.

Lemma default_range_drops_fractional_maximum_witness :
  default_price_range fractional_rows = Some (1000000, 2500000)%Z /\
  ~ In (row "B" (Some "Frogner") (Some (5000001 # 2)%Q) None None)
       (apply_filters fractional_rows [] [] [] (1000000, 2500000)%Z).
Proof.
  split; [reflexivity|].
  apply (default_range_drops_fractional_maximum fractional_rows [] [] []
           (1000000, 2500000)%Z
           (row "B" (Some "Frogner") (Some (5000001 # 2)%Q) None None)
           (5000001 # 2)%Q); try reflexivity.
  right. left. reflexivity.
Defined.

(** ** The overview buttons *)

Lemma combine_seq_lookup {A : Type} (l : list A) (start i : nat) (x : A) :
  In (i, x) (combine (seq start (length l)) l) <->
  (start <= i)%nat /\ l !! (i - start)%nat = Some x.
Proof.
  revert start. induction l as [|y l IH]; intros start; cbn [length seq combine].
  - split; [intros [] | now intros [_ H]].
  - cbn [In]. rewrite IH. split.
    + intros [[= <- <-]|[Hle Hx]].
      * split; [lia|]. now rewrite Nat.sub_diag.
      * split; [lia|]. replace (i - start)%nat with (S (i - S start)) by lia.
        exact Hx.
    + intros [Hle Hx]. destruct (decide (i = start)) as [->|Hne].
      * left. rewrite Nat.sub_diag in Hx. cbn in Hx. now injection Hx as <-.
      * right. split; [lia|].
        replace (i - start)%nat with (S (i - S start)) in Hx by lia. exact Hx.
Qed.

Lemma iterrows_lookup (df : list Transaction) (idx : nat) (row : Transaction) :
  In (idx, row) (iterrows df) <-> iloc df idx = Some row.
Proof.
  unfold iterrows, iloc. rewrite combine_seq_lookup, Nat.sub_0_r.
  split; [now intros [_ H] | intros H; split; [lia | exact H]].
Qed.

Lemma combine_seq_snd {A : Type} (l : list A) (start : nat) :
  List.map snd (combine (seq start (length l)) l) = l.
Proof.
  revert start. induction l as [|x l IH]; intros start; [reflexivity|].
  cbn [length seq combine List.map snd]. now rewrite IH.
Qed.

Lemma combine_seq_fst {A : Type} (l : list A) (start : nat) :
  List.map fst (combine (seq start (length l)) l) = seq start (length l).
Proof.
  revert start. induction l as [|x l IH]; intros start; [reflexivity|].
  cbn [length seq combine List.map fst]. now rewrite IH.
Qed.

Lemma select_labelled_snd (mask : Transaction -> bool)
    (rows : list (nat * Transaction)) :
  List.map snd (select_labelled mask rows) = select mask (List.map snd rows).
Proof.
  unfold select_labelled, select.
  induction rows as [|[i r] rows IH]; [reflexivity|].
  cbn [List.filter List.map snd]. destruct (mask r); cbn [List.map snd];
    now rewrite IH.
Qed.

Lemma guarded_select_labelled (selection : list string)
    (mask : list string -> Transaction -> bool) (rows : list (nat * Transaction)) :
  (if nonempty selection then select_labelled (mask selection) rows else rows)
  = List.filter (fun row => negb (nonempty selection) || mask selection (snd row))
      rows.
Proof.
  destruct selection; cbn [nonempty negb orb].
  - symmetry. apply filter_all.
  - reflexivity.
Qed.

Lemma apply_filters_labelled_passes (df : list Transaction)
    (district_filter type_filter date_filter : list string)
    (price_range : Z * Z) :
  apply_filters_labelled df district_filter type_filter date_filter price_range
  = List.filter
      (fun row => passes district_filter type_filter date_filter price_range
                    (snd row))
      (iterrows df).
Proof.
  unfold apply_filters_labelled.
  rewrite (guarded_select_labelled district_filter district_mask).
  rewrite (guarded_select_labelled type_filter type_mask).
  rewrite (guarded_select_labelled date_filter date_mask).
  unfold select_labelled. rewrite !filter_twice.
  apply filter_ext. intros row. unfold passes, district_mask, type_mask, date_mask.
  now rewrite !andb_assoc.
Qed.

Lemma filter_map_snd (p : Transaction -> bool) (rows : list (nat * Transaction)) :
  List.map snd (List.filter (fun row => p (snd row)) rows)
  = List.filter p (List.map snd rows).
Proof.
  induction rows as [|[i r] rows IH]; [reflexivity|].
  cbn [List.filter List.map snd]. destruct (p r); cbn [List.map snd];
    now rewrite IH.
Qed.

Lemma NoDup_filter_fst (p : nat * Transaction -> bool)
    (rows : list (nat * Transaction)) :
  List.NoDup (List.map fst rows) ->
  List.NoDup (List.map fst (List.filter p rows)).
Proof.
  induction rows as [|row rows IH]; [intros _; constructor|].
  cbn [List.map List.filter]. intros Hnd.
  apply List.NoDup_cons_iff in Hnd as [Hfresh Hnd].
  destruct (p row); [|now apply IH].
  cbn [List.map]. constructor; [|now apply IH].
  intros Hin. apply Hfresh. apply in_map_iff in Hin as (row' & Heq & Hin).
  apply in_map_iff. exists row'. split; [exact Heq|].
  now apply filter_In in Hin as [Hin _].
Qed.

(** X11.  The filtered table keeps the index labels of the rows.  There is
    one button for each returned row, in the order of the rows; a button is
    placed in the column given by its position modulo 4; its label shows the
    district and the sum of its row; the index it stores on a click is the
    position of that row in the unfiltered table, so the detail view, which
    reads the table at that position, shows the row of the button; and no
    two buttons store the same index. *)
Theorem buttons_open_their_rows (df : list Transaction)
    (district_filter type_filter date_filter : list string)
    (price_range : Z * Z) :
  let filtered_df :=
    apply_filters_labelled df district_filter type_filter date_filter
      price_range in
  List.map snd filtered_df
  = apply_filters df district_filter type_filter date_filter price_range /\
  List.map btn_index (buttons filtered_df) = List.map fst filtered_df /\
  List.NoDup (List.map btn_index (buttons filtered_df)) /\
  forall (i : nat) (b : button), buttons filtered_df !! i = Some b ->
    btn_column b = (i mod 4)%nat /\
    exists row,
      filtered_df !! i = Some (btn_index b, row) /\
      iloc df (btn_index b) = Some row /\
      btn_key b = "btn_" +:+ decimal (btn_index b) /\
      btn_label b
      = cell_str (property_district row) +:+ " - "
        +:+ format_fixed true 0 (transaction_sum row) +:+ " NOK".
Proof.
  cbv zeta.
  set (filtered_df := apply_filters_labelled df district_filter type_filter
                        date_filter price_range).
  assert (Hidx : List.map btn_index (buttons filtered_df)
                 = List.map fst filtered_df).
  { transitivity (List.map fst (List.map snd
                    (combine (seq 0 (length filtered_df)) filtered_df))).
    - unfold buttons. rewrite !List.map_map.
      apply List.map_ext. now intros [i [idx row]].
    - now rewrite combine_seq_snd. }
  split; [|split; [exact Hidx | split]].
  - unfold filtered_df. rewrite apply_filters_labelled_passes, filter_map_snd.
    unfold iterrows. now rewrite combine_seq_snd, apply_filters_passes.
  - rewrite Hidx. unfold filtered_df. rewrite apply_filters_labelled_passes.
    apply NoDup_filter_fst. unfold iterrows. rewrite combine_seq_fst.
    apply List.seq_NoDup.
  - intros i b Hb. unfold buttons in Hb.
    apply list_lookup_fmap_Some in Hb as ([j [idx row]] & -> & Hlook).
    assert (Hin : In (j, (idx, row))
                    (combine (seq 0 (length filtered_df)) filtered_df)).
    { apply list_elem_of_In, list_elem_of_lookup. eauto. }
    assert (Hj : j = i).
    { assert (Hf : (List.map fst (combine (seq 0 (length filtered_df))
                                     filtered_df)) !! i = Some j).
      { change (List.map fst ?l) with (fst <$> l). now rewrite list_lookup_fmap, Hlook. }
      rewrite combine_seq_fst in Hf. apply lookup_seq in Hf as [-> _]. lia. }
    subst j. cbn [btn_column btn_index btn_key btn_label].
    split; [reflexivity|]. exists row.
    apply combine_seq_lookup in Hin as [_ Hrow]. rewrite Nat.sub_0_r in Hrow.
    repeat split; try reflexivity; [exact Hrow|].
    apply iterrows_lookup.
    assert (Hmem : In (idx, row) filtered_df).
    { apply list_elem_of_In, list_elem_of_lookup. eauto. }
    unfold filtered_df in Hmem. rewrite apply_filters_labelled_passes in Hmem.
    now apply filter_In in Hmem as [Hmem _].
Qed.

(** ** More on the district statistics *)

Section MoreStatistics.

Variable mean : list Q -> option Q.
Variable mean_int : list Z -> option Q.
Variable round2 : Q -> Q.

(** X14.  Rows without a district enter no group: the statistics of a
    table are those of its rows that have a district, and a table with no
    such row, an empty table among them, has no statistics. *)
Theorem district_stats_ignores_missing_district (df : list Transaction) :
  district_stats mean mean_int round2 df
  = district_stats mean mean_int round2 (List.filter has_district df) /\
  ((forall r, In r df -> property_district r = None) ->
   district_stats mean mean_int round2 df = []).
Proof.
  assert (Hfold : forall groups,
    fold_left group_step df groups
    = fold_left group_step (List.filter has_district df) groups).
  { induction df as [|r df IH]; intros groups; [reflexivity|].
    cbn [List.filter]. destruct (has_district r) eqn:Hh; cbn [fold_left].
    - apply IH.
    - replace (group_step groups r) with groups; [apply IH|].
      unfold group_step. unfold has_district in Hh.
      now destruct (property_district r). }
  assert (Heq : district_stats mean mean_int round2 df
                = district_stats mean mean_int round2
                    (List.filter has_district df)).
  { unfold district_stats, groupby_district. now rewrite Hfold. }
  split; [exact Heq|].
  intros Hall. rewrite Heq.
  replace (List.filter has_district df) with (@nil Transaction); [reflexivity|].
  clear Hfold Heq. symmetry. induction df as [|r df IH]; [reflexivity|].
  cbn [List.filter]. unfold has_district at 1.
  rewrite (Hall r (or_introl eq_refl)). apply IH.
  intros r' Hr'. apply Hall. now right.
Qed.

(** X26.  The statistics have one row for each district that occurs in
    the table, in strictly ascending order of the districts.  The row of a
    district is computed from the rows of that district alone, taken in
    the order of the table: each of its three values is the rounded mean
    of the cells of its column that are present in those rows, whatever
    the float arithmetic of the mean and of the rounding yields on them. *)
Theorem district_stats_groups_rows (df : list Transaction) :
  StronglySorted (fun a b => String.leb a b = true)
    (List.map fst (district_stats mean mean_int round2 df)) /\
  NoDup (List.map fst (district_stats mean mean_int round2 df)) /\
  (forall d, In d (List.map fst (district_stats mean mean_int round2 df)) <->
     exists r, In r df /\ property_district r = Some d) /\
  (forall d row, In (d, row) (district_stats mean mean_int round2 df) ->
     let rows :=
       List.filter (fun r => bool_decide (property_district r = Some d)) df in
     mean_price_per_sqm row
     = option_map round2 (mean (omap price_per_sqm rows)) /\
     mean_transaction_sum row
     = option_map round2 (mean (omap transaction_sum rows)) /\
     mean_property_number_of_rooms row
     = option_map round2 (mean_int (omap property_number_of_rooms rows))).
Proof.
  split; [|split; [|split]].
  - rewrite district_stats_keys.
    assert (Hs : StronglySorted key_le
              (merge_sort key_le (map_to_list (groupby_district df))))
      by (apply StronglySorted_merge_sort; apply _).
    induction Hs as [|a l Hs IH Hall]; [constructor|].
    cbn [List.map]. constructor; [exact IH|].
    apply Forall_fmap. exact Hall.
  - rewrite district_stats_keys.
    change (NoDup ((merge_sort key_le (map_to_list (groupby_district df))).*1)).
    rewrite merge_sort_Permutation. apply NoDup_fst_map_to_list.
  - intros d. rewrite <- in_district_nonempty, in_map_iff. split.
    + intros ([d' row] & <- & Hin). now apply district_stats_In in Hin as [Hne _].
    + intros Hne. eexists (d, _). split; [reflexivity|].
      apply district_stats_In. split; [exact Hne | reflexivity].
  - intros d row Hin. apply district_stats_In in Hin as [_ ->].
    cbv zeta. unfold aggregate, in_district.
    cbn [mean_price_per_sqm mean_transaction_sum mean_property_number_of_rooms].
    auto.
Qed.

End MoreStatistics.

(** ** More on the feedback update *)

Lemma update_row_same_but_feedback (u : update_statement) (r : Transaction) :
  same_but_feedback r (update_row u r) /\
  (transaction_id r <> Some (upd_transaction_id u) -> update_row u r = r).
Proof.
  unfold update_row. destruct (transaction_id r) as [k|] eqn:Hk.
  - destruct (String.eqb_spec k (upd_transaction_id u)) as [->|Hne].
    + split; [|congruence]. unfold same_but_feedback. cbn. now rewrite Hk.
    + split; [|reflexivity]. unfold same_but_feedback. tauto.
  - split; [|reflexivity]. unfold same_but_feedback. tauto.
Qed.

(** X15.  A feedback update whose statement the store reads as the
    update of the template, as it does for every key and explanation
    without a quote, a backslash or a line break, adds and removes no table
    and no row: every table keeps its number of rows, and each row keeps
    every column but [is_newsworthy] and [feedback].  Rows of the tables
    other than [newsworthy] are left as they were. *)
Theorem update_keeps_rows_and_other_columns
    (run_other : store -> string -> store * option py_exception)
    (st : store) (tid label : string) (explanation : option string)
    (u : update_statement) (t : string) (rows : list Transaction) :
  read_update (sql_tokens (update_query tid label explanation)) = Some u ->
  st !! t = Some rows ->
  exists rows',
    fst (fst (update_feedback_in_bigquery run_other st tid label explanation)) !! t
    = Some rows' /\
    length rows' = length rows /\
    (t <> newsworthy_table -> rows' = rows) /\
    forall i r r', rows !! i = Some r -> rows' !! i = Some r' ->
      same_but_feedback r r'.
Proof.
  intros Hu Hrows. rewrite update_feedback_store.
  assert (Hsame : forall i r r', rows !! i = Some r -> rows !! i = Some r' ->
            same_but_feedback r r').
  { intros i r r' Hr Hr'. rewrite Hr in Hr'. injection Hr' as <-.
    unfold same_but_feedback. tauto. }
  assert (Hkept : st !! t = Some rows /\ length rows = length rows /\
            (t <> newsworthy_table -> rows = rows) /\
            forall i r r', rows !! i = Some r -> rows !! i = Some r' ->
              same_but_feedback r r') by auto.
  rewrite (run_query_accepted _ _ _ _ Hu).
  pose proof (read_update_query_table _ _ _ _ Hu) as Htable.
  destruct (st !! upd_table u) as [target|] eqn:Htarget; cbn [fst];
    [|exists rows; exact Hkept].
  destruct (decide (upd_table u = t)) as [Heq|Hne].
  - subst t. rewrite Hrows in Htarget. injection Htarget as <-.
    exists (List.map (update_row u) rows). rewrite lookup_insert_eq.
    split; [reflexivity|]. split; [apply length_map|].
    split; [congruence|].
    intros i r r' Hr Hr'.
    change (List.map (update_row u) rows) with (update_row u <$> rows) in Hr'.
    rewrite list_lookup_fmap, Hr in Hr'. injection Hr' as <-.
    apply update_row_same_but_feedback.
  - exists rows. rewrite lookup_insert_ne by exact Hne. exact Hkept.
Qed.

Lemma update_keeps_rows_and_other_columns_witness :
  exists rows',
    fst (fst (update_feedback_in_bigquery reject_other example_store
                "T9" "Newsworthy" (Some "foo")))
      !! full_table_name "non_newsworthy" = Some rows' /\
    length rows' = length [stored "T9" "seen"] /\
    (full_table_name "non_newsworthy" <> newsworthy_table ->
     rows' = [stored "T9" "seen"]) /\
    forall i r r', [stored "T9" "seen"] !! i = Some r ->
      rows' !! i = Some r' -> same_but_feedback r r'.
Proof.
  apply (update_keeps_rows_and_other_columns reject_other example_store
           "T9" "Newsworthy" (Some "foo")
           (mkUpdate newsworthy_table true "foo" "T9")
           (full_table_name "non_newsworthy")).
  - reflexivity.
  - reflexivity.
Defined.

Lemma read_assignments_judgment (table : string) (b : bool)
    (toks : list sql_token) (u : update_statement) :
  read_assignments table
    (TWord "SET" :: TWord "is_newsworthy" :: TSymbol "=" :: TWord (bool_str b)
     :: toks) = Some u ->
  upd_is_newsworthy u = b.
Proof.
  unfold read_assignments. intros H.
  assert (Hrun : forall (k : bool * list sql_token -> option update_statement),
    (expect_word "SET"
       (TWord "SET" :: TWord "is_newsworthy" :: TSymbol "="
        :: TWord (bool_str b) :: toks)
     ≫= fun toks => expect_word "IS_NEWSWORTHY" toks
     ≫= fun toks => expect_symbol "=" toks
     ≫= fun toks => take_bool toks ≫= k) = k (b, toks))
    by (intros k; destruct b; reflexivity).
  rewrite Hrun in H. open_steps H.
  match type of H with
  | match ?rest with [] => _ | _ :: _ => _ end = _ =>
      destruct rest; [|discriminate H]
  end.
  now injection H as <-.
Qed.

(** X16.  Whatever the key and the explanation, a statement that the
    store accepts sets [is_newsworthy] to the judgment: true exactly when
    the label is "Newsworthy". *)
Theorem accepted_update_carries_judgment (tid label : string)
    (explanation : option string) (u : update_statement) :
  read_update (sql_tokens (update_query tid label explanation)) = Some u ->
  upd_is_newsworthy u = String.eqb label "Newsworthy".
Proof.
  rewrite sql_tokens_update_query. unfold read_update.
  cbn [app expect_word upper String.eqb take_quoted_id mbind option_bind].
  apply read_assignments_judgment.
Qed.

Lemma accepted_update_carries_judgment_witness :
  upd_is_newsworthy (mkUpdate newsworthy_table false "no" "T1")
  = String.eqb "Not newsworthy" "Newsworthy".
Proof.
  apply (accepted_update_carries_judgment "T1" "Not newsworthy" (Some "no")).
  reflexivity.
Defined.

(** X17.  Feedback on a row whose key and explanation contain no quote,
    backslash or line break is carried out and stored as typed: the rows of
    [newsworthy] with that key receive the explanation as their feedback
    and the judgment, true exactly for a thumbs-up, and the page shows the
    success message alone. *)
Theorem plain_feedback_is_stored
    (run_other : store -> string -> store * option py_exception)
    (st : store) (df : list Transaction)
    (selected_property : nat) (score : option string)
    (property_data : Transaction) (tid explanation : string)
    (rows : list Transaction) :
  iloc df selected_property = Some property_data ->
  transaction_id property_data = Some tid -> tid <> "" ->
  plain tid -> plain explanation ->
  st !! newsworthy_table = Some rows ->
  submit_feedback run_other st df selected_property (Some score) (Some explanation)
  = (<[newsworthy_table :=
         List.map (update_row (mkUpdate newsworthy_table
                                 (score_equals score "👍") explanation tid))
                  rows]> st,
     [success_message]).
Proof.
  intros Hrow Hid Hne Htid Hexp Hrows. unfold iloc in Hrow.
  unfold submit_feedback. rewrite Hrow, Hid.
  assert (Htruthy : truthy (Some tid) = Some tid) by now destruct tid.
  rewrite Htruthy.
  rewrite (update_feedback_plain run_other st tid _ explanation rows
             Htid Hexp Hrows).
  cbn [app]. now destruct (score_equals score "👍").
Qed.

Lemma plain_feedback_is_stored_witness :
  submit_feedback reject_other example_store [stored "T9" "seen"] 0
    (Some (Some "👍")) (Some "nice")
  = (<[newsworthy_table :=
         List.map (update_row (mkUpdate newsworthy_table
                                 (score_equals (Some "👍") "👍") "nice" "T9"))
                  [stored "T1" "old"; stored "T9" "kept"]]> example_store,
     [success_message]).
Proof.
  apply (plain_feedback_is_stored reject_other example_store
           [stored "T9" "seen"] 0
           (Some "👍") (stored "T9" "seen") "T9" "nice");
    try reflexivity.
  discriminate.
Defined.

(** X18.  The page shows the success message exactly when the query
    raised nothing, and the store changes only through the query.  For
    every input one of three holds.  The statement was read as the update
    of the template and carried out: the table [newsworthy] was rewritten
    by it and the success message is all the page shows.  Or the store is
    exactly as before and the success message is not shown: no feedback
    given, a row without a transaction id, or no table [newsworthy].  Or the
    store does not read the text as the update of the template: then the
    store afterwards is what the store made of the text, and the success
    message is shown exactly when it raised nothing. *)
Theorem store_changes_only_on_success
    (run_other : store -> string -> store * option py_exception)
    (st : store) (df : list Transaction)
    (selected_property : nat) (widget : option (option string))
    (explanation : option string) :
  let '(st', shown) :=
    submit_feedback run_other st df selected_property widget explanation in
  (shown = [success_message] /\
   exists u rows,
     upd_table u = newsworthy_table /\ st !! newsworthy_table = Some rows /\
     st' = <[newsworthy_table := List.map (update_row u) rows]> st) \/
  (st' = st /\ ~ In success_message shown) \/
  (exists property_data score tid,
     df !! selected_property = Some property_data /\
     widget = Some score /\
     truthy (transaction_id property_data) = Some tid /\
     let text :=
       update_query tid
         (if score_equals score "👍" then "Newsworthy" else "Not newsworthy")
         explanation in
     read_update (sql_tokens text) = None /\
     st' = fst (run_other st text) /\
     (In success_message shown <-> snd (run_other st text) = None)).
Proof.
  unfold submit_feedback.
  destruct (df !! selected_property) as [property_data|] eqn:Hrow;
    [|right; left; split; [reflexivity | intros []]].
  destruct widget as [score|]; [|right; left; split; [reflexivity | intros []]].
  destruct (truthy (transaction_id property_data)) as [tid|] eqn:Hid.
  - set (label := if score_equals score "👍" then "Newsworthy"
                  else "Not newsworthy").
    unfold update_feedback_in_bigquery, run_query.
    destruct (read_update (sql_tokens (update_query tid label explanation)))
      as [u|] eqn:Hu.
    + pose proof (read_update_query_table _ _ _ _ Hu) as Htable.
      destruct (st !! upd_table u) as [rows|] eqn:Hrows.
      * left. split; [reflexivity|]. exists u, rows. rewrite <- Htable. auto.
      * right. left. split; [reflexivity|]. cbn.
        intros [H|[H|[]]]; discriminate H.
    + destruct (run_other st (update_query tid label explanation))
        as [st' [e|]] eqn:Hrun; cbn [app];
        right; right; exists property_data, score, tid;
        (split; [first [reflexivity | exact Hrow]|]); (split; [reflexivity|]);
        (split; [first [reflexivity | exact Hid]|]);
        cbv zeta; fold label; rewrite Hrun;
        (split; [exact Hu|]); (split; [reflexivity|]); cbn [snd].
      * split; [|discriminate]. intros [H|[H|[]]]; discriminate H.
      * split; [reflexivity|]. intros _. now left.
  - right. left. split; [reflexivity|]. cbn. intros [H|[]]. discriminate H.
Qed.

(** X27.  A feedback update whose statement the store reads as the update
    of the template is an overwrite: the rows of the table are replaced by
    their images under the statement, a row with the key holds the
    statement's two values whatever it held before, and issuing the same
    update a second time leaves the store as the first one left it. *)
Theorem accepted_update_is_idempotent
    (run_other : store -> string -> store * option py_exception)
    (st : store) (tid label : string) (explanation : option string)
    (u : update_statement) :
  read_update (sql_tokens (update_query tid label explanation)) = Some u ->
  let once :=
    fst (fst (update_feedback_in_bigquery run_other st tid label explanation)) in
  let twice :=
    fst (fst (update_feedback_in_bigquery run_other once tid label explanation)) in
  twice = once /\
  (forall rows, st !! upd_table u = Some rows ->
     once = <[upd_table u := List.map (update_row u) rows]> st) /\
  (forall r, transaction_id r = Some (upd_transaction_id u) ->
     is_newsworthy (update_row u r) = Some (upd_is_newsworthy u) /\
     feedback (update_row u r) = Some (upd_feedback u)).
Proof.
  intros Hu. cbv zeta. split; [|split].
  - rewrite !update_feedback_store. now apply run_query_accepted_idem with u.
  - intros rows Hrows. rewrite update_feedback_store.
    rewrite (run_query_accepted _ _ _ _ Hu). now rewrite Hrows.
  - intros r. apply update_row_overwrites.
Qed.

Lemma accepted_update_is_idempotent_witness :
  let once :=
    fst (fst (update_feedback_in_bigquery reject_other example_store
                "T1" "Newsworthy" (Some "foo"))) in
  let twice :=
    fst (fst (update_feedback_in_bigquery reject_other once
                "T1" "Newsworthy" (Some "foo"))) in
  twice = once /\
  once !! newsworthy_table
  = Some [set_feedback (stored "T1" "old") true "foo"; stored "T9" "kept"].
Proof.
  destruct (accepted_update_is_idempotent reject_other example_store
              "T1" "Newsworthy" (Some "foo")
              (mkUpdate newsworthy_table true "foo" "T1"))
    as (Hidem & Honce & _).
  - reflexivity.
  - cbv zeta. split; [exact Hidem|].
    rewrite (Honce _ eq_refl). reflexivity.
Defined.

Lemma double_quotes_inj (a b : string) :
  double_quotes a = double_quotes b -> a = b.
Proof.
  revert b. induction a as [|c a IH]; intros [|d b]; cbn [double_quotes].
  - reflexivity.
  - destruct (Ascii.eqb d "'"); discriminate.
  - destruct (Ascii.eqb c "'"); discriminate.
  - destruct (Ascii.eqb_spec c "'") as [->|Hc],
             (Ascii.eqb_spec d "'") as [->|Hd].
    + intros [= H]. f_equal. now apply IH.
    + intros [= H _]. congruence.
    + intros [= H _]. congruence.
    + intros [= -> H]. f_equal. now apply IH.
Qed.

Lemma append_cancel_l (p a b : string) : p +:+ a = p +:+ b -> a = b.
Proof.
  induction p as [|c p IH]; [trivial|].
  rewrite !append_cons. intros [= H]. now apply IH.
Qed.

Lemma append_cancel_r (a b t : string) : a +:+ t = b +:+ t -> a = b.
Proof.
  revert b. induction a as [|c a IH]; intros [|d b] H.
  - reflexivity.
  - apply (f_equal String.length) in H. rewrite append_length in H.
    cbn [String.length] in H. rewrite append_length in H. cbn in H. lia.
  - apply (f_equal String.length) in H. rewrite append_length in H.
    cbn [String.length] in H. rewrite append_length in H. cbn in H. lia.
  - rewrite !append_cons in H. injection H as -> H. f_equal. now apply IH.
Qed.

(** X19.  The escaping loses nothing: two explanations that give the same
    statement for the same key and judgment are the same text.  Doubling
    adds one character for each quote of the explanation. *)
Theorem update_query_determines_explanation (tid label a b : string) :
  (update_query tid label (Some a) = update_query tid label (Some b) -> a = b) /\
  String.length (escaped_explanation (Some a))
  = (String.length a
     + length (List.filter (fun c => Ascii.eqb c "'")
                 (list_ascii_of_string a)))%nat.
Proof.
  split.
  - unfold update_query. intros H.
    repeat (apply append_cancel_l in H).
    apply append_cancel_r in H. cbn [escaped_explanation] in H.
    now apply double_quotes_inj.
  - cbn [escaped_explanation]. induction a as [|c a IH]; [reflexivity|].
    cbn [double_quotes list_ascii_of_string List.filter].
    destruct (Ascii.eqb c "'"); cbn [String.length length];
      rewrite IH; lia.
Qed.

(** ** The table a run of the page works on *)

Section LoadData.

Variable literal_eval : pyval -> option pyval.

(** X20.  After the data of a run is loaded, the session names the table
    chosen in the sidebar.  If the session did not name that table before,
    as on the first run and after a change of the selection, the table of
    the session is the one read for that name, also when a file was
    uploaded in the same run: the upload is processed and reported, then
    replaced.  If the session already named the table and a file is
    uploaded, the table of the session is the processed upload and nothing
    is read. *)
Theorem load_data_table (cache cache' : data_cache) (st : store)
    (s s' : session_state) (table_option : string)
    (uploaded_file : option DataFrame) (shown : list st_message) :
  load_data literal_eval cache st s table_option uploaded_file
  = Some (s', cache', shown) ->
  current_table s' = Some (table_name_of table_option) /\
  (current_table s <> Some (table_name_of table_option) ->
   exists rows,
     df s' = Some (Queried rows) /\
     cached_load cache st (table_name_of table_option) = Some (rows, cache')) /\
  (current_table s = Some (table_name_of table_option) ->
   forall file, uploaded_file = Some file ->
     df s' = Some (Uploaded (fst (process_upload literal_eval file))) /\
     cache' = cache) /\
  (forall file, uploaded_file = Some file ->
     shown = snd (process_upload literal_eval file)).
Proof.
  unfold load_data.
  destruct uploaded_file as [file|].
  - destruct (process_upload literal_eval file) as [table reported] eqn:Hup.
    cbn [df current_table initialize fst snd].
    destruct (bool_decide (current_table s = Some (table_name_of table_option)))
      eqn:Hsame.
    + apply bool_decide_eq_true in Hsame. intros [= <- <- <-].
      cbn [current_table df]. split; [exact Hsame|].
      split; [congruence|]. split.
      * intros _ file' [= <-]. rewrite Hup. auto.
      * intros file' [= <-]. now rewrite Hup.
    + apply bool_decide_eq_false in Hsame.
      destruct (cached_load cache st (table_name_of table_option))
        as [[rows c]|]; [|discriminate].
      intros [= <- <- <-]. cbn [current_table df].
      split; [reflexivity|]. split; [eauto|]. split; [congruence|].
      intros file' [= <-]. now rewrite Hup.
  - cbn [df current_table initialize].
    destruct (df s) as [table|].
    + destruct (bool_decide (current_table s = Some (table_name_of table_option)))
        eqn:Hsame.
      * apply bool_decide_eq_true in Hsame. intros [= <- <- <-].
        cbn [current_table]. split; [exact Hsame|].
        split; [congruence|]. split; intros; discriminate.
      * apply bool_decide_eq_false in Hsame.
        destruct (cached_load cache st (table_name_of table_option))
          as [[rows c]|]; [|discriminate].
        intros [= <- <- <-]. cbn [current_table df].
        split; [reflexivity|]. split; [eauto|]. split; [congruence|].
        intros; discriminate.
    + destruct (cached_load cache st (table_name_of table_option))
        as [[rows c]|] eqn:Hload; [|discriminate].
      intros [= <- <- <-]. cbn [current_table df].
      split; [reflexivity|]. split; [eauto|]. split; intros; discriminate.
Qed.

End LoadData.

Lemma load_data_table_witness :
  load_data Literal.literal_eval ∅ example_store fresh_session "Newsworthy"
    (Some example_upload)
  = Some (loaded_session, loaded_cache,
          [StSuccess "✅ File uploaded and processed successfully!"]) /\
  current_table loaded_session = Some (table_name_of "Newsworthy") /\
  exists rows,
    df loaded_session = Some (Queried rows) /\
    cached_load ∅ example_store (table_name_of "Newsworthy")
    = Some (rows, loaded_cache).
Proof.
  assert (Hrun : load_data Literal.literal_eval ∅ example_store fresh_session
                   "Newsworthy" (Some example_upload)
                 = Some (loaded_session, loaded_cache,
                         [StSuccess "✅ File uploaded and processed successfully!"]))
    by (vm_compute; reflexivity).
  split; [exact Hrun|].
  destruct (load_data_table Literal.literal_eval _ _ _ _ _ _ _ _ Hrun)
    as (Hname & Hread & _).
  split; [exact Hname|]. apply Hread. discriminate.
Defined.

(** X21.  Once a table has been read, every later load of it returns the
    rows read then, whatever the store holds by that time: the feedback
    written by an update in between is not in the rows a later load returns. *)
Theorem cached_load_ignores_later_updates (cache cache' : data_cache)
    (st : store) (table_name : string) (rows : list Transaction) :
  cached_load cache st table_name = Some (rows, cache') ->
  (forall st', cached_load cache' st' table_name = Some (rows, cache')) /\
  forall run_other tid label explanation,
    cached_load cache'
      (fst (fst (update_feedback_in_bigquery run_other st tid label explanation)))
      table_name
    = Some (rows, cache').
Proof.
  intros Hload.
  assert (Hhit : cache' !! full_table_name table_name = Some rows).
  { unfold cached_load in Hload.
    destruct (cache !! full_table_name table_name) as [kept|] eqn:Hkept.
    - now injection Hload as <- <-.
    - destruct (load_and_process_bigquery_data st table_name) as [read|];
        [|discriminate].
      injection Hload as <- <-. apply lookup_insert_eq. }
  assert (Hall : forall st', cached_load cache' st' table_name
                             = Some (rows, cache')).
  { intros st'. unfold cached_load. now rewrite Hhit. }
  split; [exact Hall|]. intros run_other tid label explanation. apply Hall.
Qed.

Lemma cached_load_ignores_later_updates_witness :
  cached_load ∅ example_store "newsworthy"
  = Some ([stored "T1" "old"; stored "T9" "kept"], loaded_cache) /\
  cached_load loaded_cache
    (fst (fst (update_feedback_in_bigquery reject_other example_store
                 "T1" "Newsworthy" (Some "foo"))))
    "newsworthy"
  = Some ([stored "T1" "old"; stored "T9" "kept"], loaded_cache).
Proof.
  assert (Hload : cached_load ∅ example_store "newsworthy"
                  = Some ([stored "T1" "old"; stored "T9" "kept"], loaded_cache))
    by reflexivity.
  split; [exact Hload|].
  destruct (cached_load_ignores_later_updates _ _ _ _ _ Hload) as [_ H].
  exact (H reject_other "T1" "Newsworthy" (Some "foo")).
Defined.

(** ** The description block of the detail view *)

Lemma strip_prefix_Some (p s rest : string) :
  strip_prefix p s = Some rest <-> s = p +:+ rest.
Proof.
  revert s. induction p as [|a p IH]; intros s; cbn [strip_prefix].
  - split; [now intros [= ->] | now intros ->].
  - destruct s as [|b s]; [split; discriminate|].
    rewrite append_cons. destruct (Ascii.eqb_spec a b) as [->|Hne].
    + rewrite IH. split; [now intros -> | now intros [= ->]].
    + split; [discriminate | intros [= -> _]; contradiction].
Qed.

Lemma partition_Some (sep s before rest : string) :
  partition sep s = Some (before, rest) ->
  s = before +:+ sep +:+ rest /\
  forall b r, s = b +:+ sep +:+ r -> (String.length before <= String.length b)%nat.
Proof.
  revert before. induction s as [|c s IH]; intros before; cbn [partition].
  - destruct (strip_prefix sep "") as [rest'|] eqn:Hp; [|discriminate].
    intros [= <- <-]. apply strip_prefix_Some in Hp.
    split; [exact Hp | intros; cbn; lia].
  - destruct (strip_prefix sep (String c s)) as [rest'|] eqn:Hp.
    + intros [= <- <-]. apply strip_prefix_Some in Hp.
      split; [exact Hp | intros; cbn; lia].
    + destruct (partition sep s) as [[b' r']|] eqn:Hrec; [|discriminate].
      intros [= <- <-]. destruct (IH b' eq_refl) as [Hs Hmin].
      split; [now rewrite append_cons, <- Hs|].
      intros b r Hb. destruct b as [|d b].
      * assert (Hsome : strip_prefix sep (String c s) = Some r)
          by now apply strip_prefix_Some.
        congruence.
      * rewrite append_cons in Hb. injection Hb as -> Hb.
        cbn [String.length]. specialize (Hmin b r Hb). lia.
Qed.

Lemma partition_None (sep s : string) :
  partition sep s = None -> forall b r, s <> b +:+ sep +:+ r.
Proof.
  induction s as [|c s IH]; cbn [partition].
  - destruct (strip_prefix sep "") as [rest'|] eqn:Hp; [discriminate|].
    intros _ b r Hb. destruct b as [|d b]; [|discriminate Hb].
    assert (Hsome : strip_prefix sep "" = Some r) by now apply strip_prefix_Some.
    congruence.
  - destruct (strip_prefix sep (String c s)) as [rest'|] eqn:Hp; [discriminate|].
    destruct (partition sep s) as [[b' r']|] eqn:Hrec; [discriminate|].
    intros _ b r Hb. destruct b as [|d b].
    + assert (Hsome : strip_prefix sep (String c s) = Some r)
        by now apply strip_prefix_Some.
      congruence.
    + rewrite append_cons in Hb. injection Hb as -> Hb.
      exact (IH eq_refl b r Hb).
Qed.

(** X22.  For a description that is not empty, the block shows the whole
    description when the marker phrase does not occur in it.  When it
    occurs, the text written first is the part of the description before
    the first occurrence of the marker, and it is followed by the block of
    additional details.  A missing or empty description shows nothing. *)
Theorem render_description_splits_at_marker (description : string) :
  description <> "" ->
  (contains marker description = false ->
   render_description (Some description)
   = [Subheader "Property Description"; Write description] /\
   forall b r, description <> b +:+ marker +:+ r) /\
  (contains marker description = true ->
   render_description (Some description)
   = [ Subheader "Property Description";
       Write (main_description description);
       Markdown ("### Additional Details" +:+ String "010" ""
                 +:+ formatted_details description) ] /\
   exists rest,
     description = main_description description +:+ marker +:+ rest /\
     forall b r, description = b +:+ marker +:+ r ->
       (String.length (main_description description) <= String.length b)%nat) /\
  render_description None = [] /\ render_description (Some "") = [].
Proof.
  intros Hne. unfold contains, main_description.
  destruct (partition marker description) as [[before rest]|] eqn:Hp.
  - split; [discriminate|]. split; [|split; reflexivity]. intros _. split.
    + destruct description; [contradiction|].
      unfold render_description, contains, main_description. now rewrite Hp.
    + exists rest. now apply partition_Some.
  - split; [|split; [discriminate | split; reflexivity]]. intros _. split.
    + destruct description; [contradiction|].
      unfold render_description, contains. now rewrite Hp.
    + now apply partition_None.
Qed.

Lemma render_description_splits_at_marker_witness :
  render_description (Some detailed_description)
  = [ Subheader "Property Description";
      Write "Flat in Oslo. ";
      Markdown ("### Additional Details" +:+ String "010" ""
                +:+ "**rooms**: 3" +:+ String "010" ""
                +:+ "**view**: sea:north" +:+ String "010" "") ].
Proof.
  destruct (render_description_splits_at_marker detailed_description)
    as (_ & Hsplit & _).
  - discriminate.
  - destruct (Hsplit eq_refl) as [Hrender _]. exact Hrender.
Defined.

Lemma split_nonempty (sep : ascii) (s : string) : split sep s <> [].
Proof.
  destruct s as [|c s]; cbn [split]; [discriminate|].
  destruct (Ascii.eqb c sep); [discriminate|].
  destruct (split sep s); discriminate.
Qed.

Lemma concat_cons (sep w : string) (ws : list string) :
  ws <> [] -> String.concat sep (w :: ws) = w +:+ sep +:+ String.concat sep ws.
Proof. destruct ws; [contradiction | reflexivity]. Qed.

Lemma split_join (sep : ascii) (s : string) :
  String.concat (String sep "") (split sep s) = s.
Proof.
  induction s as [|c s IH]; [reflexivity|].
  cbn [split]. destruct (Ascii.eqb_spec c sep) as [->|Hne].
  - rewrite concat_cons by apply split_nonempty. now rewrite IH.
  - destruct (split sep s) as [|w ws] eqn:Hs; [now apply split_nonempty in Hs|].
    destruct ws as [|w' ws].
    + cbn [String.concat] in *. now rewrite IH.
    + rewrite concat_cons by discriminate.
      rewrite concat_cons in IH by discriminate.
      now rewrite append_cons, IH.
Qed.

Lemma split_tokens (sep : ascii) (s : string) :
  Forall (fun w => Literal.all_chars (not_char sep) w = true) (split sep s).
Proof.
  induction s as [|c s IH]; cbn [split]; [now constructor|].
  destruct (Ascii.eqb c sep) eqn:Hc; [now constructor|].
  destruct (split sep s) as [|w ws]; [constructor; [|constructor]|].
  - cbn. unfold not_char. now rewrite Hc.
  - apply Forall_cons in IH as [Hw Hws]. constructor; [|exact Hws].
    cbn [Literal.all_chars]. unfold not_char at 1. now rewrite Hc, Hw.
Qed.

Lemma partition_colon (key value : string) :
  Literal.all_chars (not_char ":") key = true ->
  partition ":" (key +:+ ":" +:+ value) = Some (key, value).
Proof.
  induction key as [|c key IH]; intros Hkey.
  - reflexivity.
  - cbn [Literal.all_chars] in Hkey. apply andb_true_iff in Hkey as [Hc Hkey].
    unfold not_char in Hc. apply negb_true_iff in Hc.
    rewrite append_cons. cbn [partition strip_prefix].
    rewrite Ascii.eqb_sym, Hc. now rewrite (IH Hkey).
Qed.

Lemma partition_no_colon (line : string) :
  Literal.all_chars (not_char ":") line = true -> partition ":" line = None.
Proof.
  induction line as [|c line IH]; intros Hline; [reflexivity|].
  cbn [Literal.all_chars] in Hline. apply andb_true_iff in Hline as [Hc Hline].
  unfold not_char in Hc. apply negb_true_iff in Hc.
  cbn [partition strip_prefix]. rewrite Ascii.eqb_sym, Hc. now rewrite (IH Hline).
Qed.

(** X23.  The additional details are cut at single spaces: joining the
    pieces with spaces gives the text back and no piece contains a space.
    A piece is cut at its first colon only: what precedes it is the key,
    written in bold, and everything after it, further colons included, is
    the value, both trimmed; a piece without a colon is written trimmed on
    a line of its own. *)
Theorem details_are_cut_at_spaces_and_first_colon (details : string) :
  String.concat " " (split " " details) = details /\
  Forall (fun w => Literal.all_chars (not_char " ") w = true)
    (split " " details) /\
  (forall key value, Literal.all_chars (not_char ":") key = true ->
     format_line (key +:+ ":" +:+ value)
     = "**" +:+ strip key +:+ "**: " +:+ strip value +:+ String "010" "") /\
  (forall line, Literal.all_chars (not_char ":") line = true ->
     format_line line = strip line +:+ String "010" "").
Proof.
  split; [apply split_join|]. split; [apply split_tokens|]. split.
  - intros key value Hkey. unfold format_line.
    now rewrite partition_colon.
  - intros line Hline. unfold format_line. now rewrite partition_no_colon.
Qed.

(** ** Rounding and the texts of numbers *)

Lemma without_commas_list (l : list ascii) :
  without_commas (string_of_list_ascii l)
  = string_of_list_ascii (List.filter (fun c => negb (Ascii.eqb c ",")) l).
Proof.
  induction l as [|c l IH]; [reflexivity|].
  cbn [string_of_list_ascii without_commas List.filter].
  destruct (Ascii.eqb c ","); cbn [negb string_of_list_ascii]; now rewrite IH.
Qed.

Lemma filter_commas_rev (l : list ascii) (position : nat) :
  List.filter (fun c => negb (Ascii.eqb c ",")) (commas_rev l position)
  = List.filter (fun c => negb (Ascii.eqb c ",")) l.
Proof.
  revert position. induction l as [|c l IH]; intros position; [reflexivity|].
  cbn [commas_rev].
  destruct ((0 <? position)%nat && (position mod 3 =? 0)%nat);
    cbn [List.filter Ascii.eqb Bool.eqb negb andb]; now rewrite IH.
Qed.

Lemma filter_rev_list {A : Type} (p : A -> bool) (l : list A) :
  List.filter p (rev l) = rev (List.filter p l).
Proof.
  induction l as [|x l IH]; [reflexivity|].
  cbn [rev List.filter]. rewrite List.filter_app, IH. cbn [List.filter].
  destruct (p x); [reflexivity | now rewrite app_nil_r].
Qed.

Lemma filter_digits (s : string) :
  Literal.all_chars Literal.is_digit s = true ->
  List.filter (fun c => negb (Ascii.eqb c ",")) (list_ascii_of_string s)
  = list_ascii_of_string s.
Proof.
  induction s as [|c s IH]; [reflexivity|].
  cbn [Literal.all_chars list_ascii_of_string List.filter].
  intros H. apply andb_true_iff in H as [Hc Hs].
  destruct (Ascii.eqb_spec c ",") as [->|_]; [discriminate Hc|].
  cbn [negb]. now rewrite IH.
Qed.

Lemma without_with_commas (digits : string) :
  Literal.all_chars Literal.is_digit digits = true ->
  without_commas (with_commas digits) = digits.
Proof.
  intros Hd. unfold with_commas.
  rewrite without_commas_list, filter_rev_list, filter_commas_rev,
    filter_rev_list, rev_involutive, filter_digits by exact Hd.
  apply string_of_list_ascii_of_string.
Qed.

Lemma decimal_digits (n : nat) :
  Literal.all_chars Literal.is_digit (decimal n) = true.
Proof.
  unfold decimal. generalize (Nat.to_uint n). intros u.
  induction u; cbn [NilEmpty.string_of_uint Literal.all_chars]; try exact IHu.
  reflexivity.
Qed.

(** X25.  The text of a sum that is not negative, as the button labels and
    the statistics write it, is the sum rounded to the nearest whole
    number, ties to the even one, written in decimal with commas added:
    without its commas the text is the decimal numeral of the rounded sum.
    A missing value is written [nan]. *)
Theorem sum_text_is_rounded_sum (q : Q) :
  Qle_bool 0 q = true ->
  without_commas (format_fixed true 0 (Some q))
  = decimal (Z.to_nat (round_half_even q)) /\
  format_fixed true 0 None = "nan".
Proof.
  intros Hq. split; [|reflexivity]. apply Qle_bool_iff in Hq.
  unfold format_fixed. rewrite (proj2 (Qle_bool_iff 0 q) Hq).
  cbn [Z.of_nat Z.pow]. change (10 ^ 0)%Z with 1%Z.
  rewrite Z.div_1_r.
  assert (Hround : round_half_even (Qabs q * inject_Z (10 ^ Z.of_nat 0))
                   = round_half_even q).
  { apply round_half_even_comp. rewrite (Qabs_pos q Hq).
    change (inject_Z (10 ^ Z.of_nat 0)) with 1%Q. ring. }
  rewrite Hround.
  change ("" +:+ with_commas (decimal (Z.to_nat (round_half_even q))) +:+ "")
    with (with_commas (decimal (Z.to_nat (round_half_even q))) +:+ "").
  rewrite append_empty_r. apply without_with_commas, decimal_digits.
Qed.

Lemma sum_text_is_rounded_sum_witness :
  format_fixed true 0 (Some (2469135 # 2)%Q) = "1,234,568" /\
  without_commas (format_fixed true 0 (Some (2469135 # 2)%Q))
  = decimal (Z.to_nat (round_half_even (2469135 # 2)%Q)).
Proof.
  split; [reflexivity|].
  destruct (sum_text_is_rounded_sum (2469135 # 2)%Q) as [H _].
  - reflexivity.
  - exact H.
Defined.
